(** * The transform cache of the hermes-transform plugin

    A shallow embedding of the per-file transform cache in
    [hermes-transform-plugin] (second document of
    [src/packages/plugins/lib/assetRegisterPlugin/helpers/fs.ts], lines
    109-285): the lookup [getTransformedSourceFromCache], the store step at
    the end of [transformSource], and the [build.onLoad] callback that ties
    them together.

    Asynchronous code is modelled sequentially (one [await] after the
    other) in a state-and-exception monad over a [World] that holds the
    source files, the open file handles, both cache tiers and a trace of the
    operations performed.  Calls of [logger.debug] only write to the
    console and are left out.

    A second part embeds the copying of assets ([copyAssetsToDestination]
    with [getDevServerBasePath] and [resolveAssetPath]) as programs over
    the file-system calls they await. *)

From Stdlib Require Import ZArith String Ascii List Bool.
From stdpp Require Import base option gmap strings list.
From Stdlib Require QArith Qcanon.

Local Open Scope Z_scope.

(** ** JavaScript values the plugin handles *)

(** A thrown value: [new Error(message)] or a rejection of
    [node:fs/promises] with its error code and system call. *)
Inductive Error :=
| JsError (message : string)
| SystemError (code : string) (syscall : string).

(** How a call ends: it returns a value or throws. *)
Inductive Completion (A : Type) :=
| Return (a : A)
| Throw (e : Error).
Arguments Return {A} a.
Arguments Throw {A} e.

(** [OnLoadArgs] of esbuild; the plugin reads [path] only. *)
Record OnLoadArgs := { path : string }.

(** [OnLoadResult] of esbuild, as far as the plugin fills it in. *)
Record OnLoadResult := { resultContents : string; loader : string }.

(** The entry [cache.readFromMemory] yields and [cache.writeToMemory]
    takes: [{ data, modifiedAt }].  [modifiedAt] holds an [mtimeMs]; the
    code only compares such values with [===], so they are modelled as
    integers (epoch milliseconds). *)
Record MemoryCacheEntry := { data : string; modifiedAt : Z }.

(** The object [getTransformedSourceFromCache] resolves to. *)
Record LookupResult := {
  contents : string;
  fromCache : bool;
  hash : option string
}.

(** Options handed to [transformWithBabel]. *)
Record BabelOptions := { babelrc : bool; plugins : option (list string) }.

(** One element of [config.transform.customTransformRules]. *)
Record CustomTransformRule := {
  test : string -> string -> bool;
  rulePlugins : list string
}.

(** ** The world the plugin runs in *)

(** What the host file system answers for a source path.  [fs.open]
    rejects when the path is absent; [stat], [readFile] and [close] on the
    handle reject when [statOk], [readOk] resp. [closeOk] is off, with the
    error [rejection] gives for the system call (["fstat"], ["read"],
    ["close"]): an I/O error, [EISDIR] for a directory opened for reading,
    and so on. *)
Record SourceFile := {
  mtimeMs : Z;
  text : string;
  statOk : bool;
  readOk : bool;
  closeOk : bool;
  rejection : string -> Error
}.

(** The rejections of a file on a failing disk. *)
Definition ioError (syscall : string) : Error := SystemError "EIO" syscall.

(** A [FileHandle] of [node:fs/promises]. *)
Record FileHandle := { fd : nat; target : string }.

(** Operations recorded in the trace, in the order they are issued. *)
Inductive Event :=
| EvOpen (p : string) (d : nat)
| EvStat (d : nat)
| EvReadFile (d : nat)
| EvClose (d : nat)
| EvMemoryRead (key : string)
| EvMemoryWrite (key : string) (entry : MemoryCacheEntry)
| EvFsRead (h : string)
| EvFsWrite (h : string) (content : string)
| EvFsWriteFailed (h : string)
| EvBabel (source : string) (p : string) (options : BabelOptions)
| EvSwc (source : string) (p : string).

Record World := {
  files : gmap string SourceFile;
  openHandles : gset nat;
  memory : gmap string MemoryCacheEntry;
  cacheRoot : gmap string string;
  cacheRootWritable : bool;
  trace : list Event
}.

Definition log (ev : Event) (w : World) : World :=
  {| files := files w; openHandles := openHandles w; memory := memory w;
     cacheRoot := cacheRoot w; cacheRootWritable := cacheRootWritable w;
     trace := trace w ++ [ev] |}.

Definition setOpenHandles (hs : gset nat) (w : World) : World :=
  {| files := files w; openHandles := hs; memory := memory w;
     cacheRoot := cacheRoot w; cacheRootWritable := cacheRootWritable w;
     trace := trace w |}.

Definition setMemory (m : gmap string MemoryCacheEntry) (w : World) : World :=
  {| files := files w; openHandles := openHandles w; memory := m;
     cacheRoot := cacheRoot w; cacheRootWritable := cacheRootWritable w;
     trace := trace w |}.

Definition setCacheRoot (c : gmap string string) (w : World) : World :=
  {| files := files w; openHandles := openHandles w; memory := memory w;
     cacheRoot := c; cacheRootWritable := cacheRootWritable w;
     trace := trace w |}.

Definition setFiles (fs : gmap string SourceFile) (w : World) : World :=
  {| files := fs; openHandles := openHandles w; memory := memory w;
     cacheRoot := cacheRoot w; cacheRootWritable := cacheRootWritable w;
     trace := trace w |}.


(** ** A monad for state and exceptions *)

Definition M (A : Type) : Type := World -> Completion A * World.

Definition ret {A} (a : A) : M A := fun w => (Return a, w).

Definition throw {A} (e : Error) : M A := fun w => (Throw e, w).

Definition bind {A B} (m : M A) (k : A -> M B) : M B :=
  fun w =>
    match m w with
    | (Return a, w') => k a w'
    | (Throw e, w') => (Throw e, w')
    end.

Notation "'let!' x ':=' m 'in' k" := (bind m (fun x => k))
  (at level 10, x name, m at level 100, k at level 200).

Notation "m ';;;' k" := (bind m (fun _ => k))
  (at level 100, k at level 200, right associativity).

(** [try { body } finally { fin }]: [fin] runs however [body] ends; the
    completion of [body] stands unless [fin] throws. *)
Definition tryFinally {A} (body : M A) (fin : M unit) : M A :=
  fun w =>
    match body w with
    | (r, w1) =>
        match fin w1 with
        | (Return _, w2) => (r, w2)
        | (Throw e, w2) => (Throw e, w2)
        end
    end.

(** ** node:fs/promises *)

(** [fs.open(path, 'r')]. *)
Definition fsOpen (p : string) : M FileHandle :=
  fun w =>
    match files w !! p with
    | None => (Throw (SystemError "ENOENT" "open"), w)
    | Some _ =>
        let d := fresh (openHandles w) in
        (Return {| fd := d; target := p |},
         log (EvOpen p d) (setOpenHandles ({[d]} ∪ openHandles w) w))
    end.

(** [fileHandle.stat()], of which the plugin reads [mtimeMs]. *)
Definition fhStat (fh : FileHandle) : M Z :=
  fun w =>
    match files w !! target fh with
    | Some f =>
        if statOk f then (Return (mtimeMs f), log (EvStat (fd fh)) w)
        else (Throw (rejection f "fstat"), log (EvStat (fd fh)) w)
    | None => (Throw (SystemError "EBADF" "fstat"), log (EvStat (fd fh)) w)
    end.

(** [fileHandle.readFile({ encoding: 'utf-8' })]. *)
Definition fhReadFile (fh : FileHandle) : M string :=
  fun w =>
    match files w !! target fh with
    | Some f =>
        if readOk f then (Return (text f), log (EvReadFile (fd fh)) w)
        else (Throw (rejection f "read"), log (EvReadFile (fd fh)) w)
    | None => (Throw (SystemError "EBADF" "read"), log (EvReadFile (fd fh)) w)
    end.

(** [fileHandle.close()].  The descriptor is given up whether the call
    resolves or rejects. *)
Definition fhClose (fh : FileHandle) : M unit :=
  fun w =>
    let w' := log (EvClose (fd fh)) (setOpenHandles (openHandles w ∖ {[fd fh]}) w) in
    match files w !! target fh with
    | Some f =>
        if closeOk f then (Return tt, w')
        else (Throw (rejection f "close"), w')
    | None => (Throw (SystemError "EBADF" "close"), w')
    end.

(** What [try { ... } finally { await fileHandle.close() }] makes of the
    completion [r] of its body: [r] itself, unless [close] rejects. *)
Definition closing {A} (f : SourceFile) (r : Completion A) : Completion A :=
  if closeOk f then r else Throw (rejection f "close").

(** ** The cache manager

    [CacheManager] comes from [@react-native-esbuild/core]; the plugin only
    calls these five methods.  The lookup and the store are written against
    this interface, so that what they do can be stated for any
    implementation. *)

Section Plugin.

Context {Config : Type}.

(** [hashParam]: the tuple [[platform, config, path, mtimeMs]]. *)
Definition HashParam : Type := option string * Config * string * Z.

Record CacheManager := {
  readFromMemory : string -> M (option MemoryCacheEntry);
  writeToMemory : string -> MemoryCacheEntry -> M unit;
  getCacheHash : HashParam -> M string;
  readFromFileSystem : string -> M (option string);
  writeToFileSystem : string -> string -> M unit
}.

(** Modelled from the spec: the [CacheManager] class of
    [@react-native-esbuild/core] is not among the sources.  Spec 4.1-4.3:
    the Memory Tier is a mapping read without side effects and overwritten
    unconditionally; the Filesystem Tier maps a hash to content, an absent
    entry is a normal miss, and a failing write is reported but not fatal;
    the hash is a pure, deterministic function [computeHash] of the
    tuple. *)
Definition specCache (computeHash : HashParam -> string) : CacheManager := {|
  readFromMemory key := fun w => (Return (memory w !! key), log (EvMemoryRead key) w);
  writeToMemory key entry := fun w =>
    (Return tt, log (EvMemoryWrite key entry) (setMemory (<[key := entry]> (memory w)) w));
  getCacheHash param := ret (computeHash param);
  readFromFileSystem h := fun w => (Return (cacheRoot w !! h), log (EvFsRead h) w);
  writeToFileSystem h content := fun w =>
    if cacheRootWritable w
    then (Return tt, log (EvFsWrite h content) (setCacheRoot (<[h := content]> (cacheRoot w)) w))
    else (Return tt, log (EvFsWriteFailed h) w)
|}.

(** ** The closure of [setup] *)

Variable cache : CacheManager.
(** [context.bundlerConfig.dev] *)
Variable cacheEnabled : bool.
(** [build.initialOptions.platform] *)
Variable platform : option string.
(** [context.config] *)
Variable config : Config.
(** The two optional regular expressions built from the package-name
    lists, as their [test] functions. *)
Variable stripFlowPackageNamesRegExp : option (string -> bool).
Variable fullyTransformPackagesRegExp : option (string -> bool).
Variable customTransformRules : list CustomTransformRule.

(** The external transformers and [isFlow]. *)
Variable transformWithBabel : string -> OnLoadArgs -> BabelOptions -> Completion string.
Variable transformWithSwc : string -> OnLoadArgs -> Completion string.
Variable isFlow : string -> string -> bool.

(** [re?.test(s)] used as a condition: false when [re] is undefined. *)
Definition regExpTest (re : option (string -> bool)) (s : string) : bool :=
  match re with
  | Some t => t s
  | None => false
  end.

(** Truthiness of a value of type [string | undefined]: the empty string
    is falsy. *)
Definition truthy (s : option string) : bool :=
  match s with
  | Some c => negb (String.eqb c "")
  | None => false
  end.

(** [`${args.path}${build.initialOptions.platform ?? ''}`] *)
Definition memoryCacheKey (p : string) (pf : option string) : string :=
  p +:+ default "" pf.

Definition babel (source : string) (args : OnLoadArgs) (options : BabelOptions) : M string :=
  fun w =>
    (transformWithBabel source args options, log (EvBabel source (path args) options) w).

Definition swc (source : string) (args : OnLoadArgs) : M string :=
  fun w => (transformWithSwc source args, log (EvSwc source (path args)) w).

(** *** [getTransformedSourceFromCache] *)

(** The block guarded by [if (cacheEnabled)] (lines 154-193).  [inl r]: the
    block returned [r]; [inr h]: control fell out of the block with the
    local [hash] set to [h]. *)
Definition cachedLookup (fileHandle : FileHandle) (args : OnLoadArgs)
  : M (LookupResult + option string) :=
  let! mtime := fhStat fileHandle in
  let key := memoryCacheKey (path args) platform in
  let! inMemoryCache := readFromMemory cache key in
  let hashParam : HashParam := (platform, config, path args, mtime) in
  match inMemoryCache with
  | Some entry =>
      if decide (modifiedAt entry = mtime)
      then ret (inl {| contents := data entry; fromCache := true; hash := None |})
      else
        let! raw := fhReadFile fileHandle in
        let! h := getCacheHash cache hashParam in
        ret (inl {| contents := raw; fromCache := false; hash := Some h |})
  | None =>
      let! h := getCacheHash cache hashParam in
      let! cachedSource := readFromFileSystem cache h in
      if truthy cachedSource
      then
        (* in this branch [cachedSource] is a string *)
        let c := default "" cachedSource in
        writeToMemory cache key {| data := c; modifiedAt := mtime |} ;;;
        ret (inl {| contents := c; fromCache := true; hash := None |})
      else ret (inr (Some h))
  end.

(** The body of the [try] once [fileHandle] is assigned (lines 153-201). *)
Definition lookupBody (fileHandle : FileHandle) (args : OnLoadArgs) : M LookupResult :=
  let! r := (if cacheEnabled then cachedLookup fileHandle args else ret (inr None)) in
  match r with
  | inl result => ret result
  | inr h =>
      let! raw := fhReadFile fileHandle in
      ret {| contents := raw; fromCache := false; hash := h |}
  end.

(** Lines 144-205.  When [fs.open] rejects, [fileHandle] is still [null]
    and [fileHandle?.close()] in the [finally] block does nothing. *)
Definition getTransformedSourceFromCache (args : OnLoadArgs) : M LookupResult :=
  fun w =>
    match fsOpen (path args) w with
    | (Throw e, w1) => (Throw e, w1)
    | (Return fileHandle, w1) =>
        tryFinally (lookupBody fileHandle args) (fhClose fileHandle) w1
    end.

(** *** [transformSource] *)

(** The [for await] loop over [customTransformRules] (lines 243-250). *)
Fixpoint applyCustomRules (rules : list CustomTransformRule) (args : OnLoadArgs)
    (source : string) : M string :=
  match rules with
  | [] => ret source
  | rule :: rest =>
      let! source' :=
        (if test rule (path args) source
         then babel source args {| babelrc := false; plugins := Some (rulePlugins rule) |}
         else ret source) in
      applyCustomRules rest args source'
  end.

(** Lines 216-253: the transformer pipeline, up to the swc pass. *)
Definition applyTransforms (args : OnLoadArgs) (rawSource : string) : M string :=
  let! st :=
    (if regExpTest fullyTransformPackagesRegExp (path args)
     then
       let! s := babel rawSource args {| babelrc := true; plugins := None |} in
       ret (s, true)
     else ret (rawSource, false)) in
  let source := fst st in
  let fullyTransformed := snd st in
  let! source :=
    (if negb fullyTransformed
        && (isFlow source (path args)
            || regExpTest stripFlowPackageNamesRegExp (path args))
     then
       babel source args
         {| babelrc := false;
            plugins := Some ["@babel/plugin-syntax-flow";
                             "@babel/plugin-transform-flow-strip-types"] |}
     else ret source) in
  let! source := applyCustomRules customTransformRules args source in
  swc source args.

(** Lines 207-260. *)
Definition transformSource (args : OnLoadArgs) (rawSource : string)
    (h : option string) : M string :=
  match h with
  | None => throw (JsError "hash is required for caching")
  | Some h =>
      let! source := applyTransforms args rawSource in
      (if cacheEnabled then writeToFileSystem cache h source else ret tt) ;;;
      ret source
  end.

(** *** [build.onLoad] (lines 262-283) *)
Definition onLoad (args : OnLoadArgs) : M OnLoadResult :=
  let! r := getTransformedSourceFromCache args in
  let! c :=
    (if fromCache r then ret (contents r)
     else transformSource args (contents r) (hash r)) in
  ret {| resultContents := c; loader := "js" |}.

End Plugin.

Arguments HashParam : clear implicits.
Arguments CacheManager : clear implicits.

(** ** The [onLoad] filter and the platforms of esbuild *)

(** [endsWith suffix s]: [s] ends with [suffix]. *)
Fixpoint endsWith (suffix s : string) : bool :=
  if String.eqb s suffix then true
  else
    match s with
    | EmptyString => false
    | String _ s' => endsWith suffix s'
    end.

(** The filter [/\.(?:[mc]js|[tj]sx?)$/] of [build.onLoad]: the callback,
    and with it the lookup, only runs for paths with one of these endings. *)
Definition loadFilter (p : string) : bool :=
  existsb (fun ext => endsWith ext p)
    [".mjs"; ".cjs"; ".ts"; ".js"; ".tsx"; ".jsx"].

(** The values esbuild allows for [initialOptions.platform]:
    [undefined], ['browser'], ['node'] or ['neutral']. *)
Definition esbuildPlatform (pf : option string) : bool :=
  match pf with
  | None => true
  | Some s => bool_decide (s ∈ ["browser"; "node"; "neutral"])
  end.

(** The last character of a string. *)
Fixpoint lastChar (s : string) : option ascii :=
  match s with
  | EmptyString => None
  | String c EmptyString => Some c
  | String _ s' => lastChar s'
  end.

(** ** Observations of the world *)

(** [keeps f m]: running [m] never changes the observation [f] of the
    world, however [m] ends. *)
Definition keeps {A X} (f : World -> X) (m : M A) : Prop :=
  forall w, f (snd (m w)) = f w.

(** [appends m]: whatever [m] does, the trace only grows. *)
Definition appends {A} (m : M A) : Prop :=
  forall w, exists evs, trace (snd (m w)) = trace w ++ evs.

Definition isHandleEvent (ev : Event) : bool :=
  match ev with
  | EvOpen _ _ | EvClose _ => true
  | _ => false
  end.

Definition isTransformerEvent (ev : Event) : bool :=
  match ev with
  | EvBabel _ _ _ | EvSwc _ _ => true
  | _ => false
  end.

Definition isTierEvent (ev : Event) : bool :=
  match ev with
  | EvMemoryRead _ | EvMemoryWrite _ _
  | EvFsRead _ | EvFsWrite _ _ | EvFsWriteFailed _ => true
  | _ => false
  end.

(** The opens and closes of source-file handles so far. *)
Definition handleEvents (w : World) : list Event :=
  List.filter isHandleEvent (trace w).

(** The transformer invocations so far. *)
Definition transformerCalls (w : World) : list Event :=
  List.filter isTransformerEvent (trace w).

(** The handle bookkeeping of a world: which handles are open, and the
    opens and closes so far. *)
Definition handleState (w : World) : gset nat * list Event :=
  (openHandles w, handleEvents w).

(** Everything but the trace. *)
Definition storage (w : World) :=
  (files w, openHandles w, memory w, cacheRoot w, cacheRootWritable w).

(** A cache manager none of whose methods changes the observation [f]. *)
Record Neutral {Config X} (f : World -> X) (cache : CacheManager Config) : Prop := {
  neutral_readFromMemory : forall key, keeps f (readFromMemory cache key);
  neutral_writeToMemory : forall key e, keeps f (writeToMemory cache key e);
  neutral_getCacheHash : forall p, keeps f (getCacheHash cache p);
  neutral_readFromFileSystem : forall h, keeps f (readFromFileSystem cache h);
  neutral_writeToFileSystem : forall h c, keeps f (writeToFileSystem cache h c)
}.

(** The world once the lookup has opened the source file, done [steps]
    and closed the handle again, with [mem] as the Memory Tier. *)
Definition afterLookup (args : OnLoadArgs) (steps : nat -> list Event)
    (mem : gmap string MemoryCacheEntry) (w : World) : World :=
  let d := fresh (openHandles w) in
  {| files := files w;
     openHandles := ({[d]} ∪ openHandles w) ∖ {[d]};
     memory := mem;
     cacheRoot := cacheRoot w;
     cacheRootWritable := cacheRootWritable w;
     trace := trace w ++ EvOpen (path args) d :: steps d ++ [EvClose d] |}.

(** ** A concrete build, for examples

    One source file [a.js] with modification time 1, a transformer that
    turns every source into ["const a=1;"], and a hash that tells the two
    modification times of the examples apart. *)

Definition demoHash (p : HashParam unit) : string :=
  if decide (p.2 = 1) then "H1" else "H2".

Definition demoBabel (source : string) (args : OnLoadArgs) (o : BabelOptions)
  : Completion string := Return source.

Definition demoSwc (source : string) (args : OnLoadArgs) : Completion string :=
  Return "const a=1;".

Definition demoIsFlow (source p : string) : bool := false.

Definition aJs : OnLoadArgs := {| path := "a.js" |}.

Definition demoFile : SourceFile :=
  {| mtimeMs := 1; text := "const a = 1"; statOk := true; readOk := true;
     closeOk := true; rejection := ioError |}.

Definition demoWorld : World :=
  {| files := {[ "a.js" := demoFile ]};
     openHandles := ∅;
     memory := ∅;
     cacheRoot := ∅;
     cacheRootWritable := true;
     trace := [] |}.

(** A cache manager every method of which throws. *)
Definition throwingCache : CacheManager unit := {|
  readFromMemory key := throw (JsError "cache failure");
  writeToMemory key entry := throw (JsError "cache failure");
  getCacheHash param := throw (JsError "cache failure");
  readFromFileSystem h := throw (JsError "cache failure");
  writeToFileSystem h content := throw (JsError "cache failure")
|}.

(** [demoWorld] with an on-disk cache that rejects writes. *)
Definition readOnlyCacheWorld : World :=
  {| files := {[ "a.js" := demoFile ]};
     openHandles := ∅;
     memory := ∅;
     cacheRoot := ∅;
     cacheRootWritable := false;
     trace := [] |}.

(** [demoWorld] with [a.js] turned into something that opens but cannot
    be read. *)
Definition unreadableWorld : World :=
  setFiles {[ "a.js" := {| mtimeMs := 1; text := ""; statOk := true;
                           readOk := false; closeOk := true;
                           rejection := ioError |} ]} demoWorld.

(** [demoWorld] after an earlier process stored the empty text under the
    hash of [a.js] (the transform of a file may be empty). *)
Definition emptyEntryWorld : World :=
  setCacheRoot {[ "H1" := "" ]} demoWorld.

(** [demoWorld] with a Memory Tier entry recorded at modification time 0. *)
Definition staleWorld : World :=
  setMemory {[ "a.jsios" := {| data := "old"; modifiedAt := 0 |} ]} demoWorld.

(** [demoWorld] after an earlier process stored the transform of [a.js]. *)
Definition warmDiskWorld : World :=
  setCacheRoot {[ "H1" := "const a=1;" ]} demoWorld.

(** ** Repeated loads *)

(** The world after [n] successive [onLoad] calls for the same file. *)
Fixpoint loads {Config : Type} (cache : CacheManager Config) (cacheEnabled : bool)
    (platform : option string) (config : Config)
    (stripFlowPackageNamesRegExp fullyTransformPackagesRegExp : option (string -> bool))
    (customTransformRules : list CustomTransformRule)
    (transformWithBabel : string -> OnLoadArgs -> BabelOptions -> Completion string)
    (transformWithSwc : string -> OnLoadArgs -> Completion string)
    (isFlow : string -> string -> bool)
    (n : nat) (args : OnLoadArgs) (w : World) : World :=
  match n with
  | O => w
  | S n' =>
      snd (onLoad cache cacheEnabled platform config stripFlowPackageNamesRegExp
             fullyTransformPackagesRegExp customTransformRules transformWithBabel
             transformWithSwc isFlow args
             (loads cache cacheEnabled platform config stripFlowPackageNamesRegExp
                fullyTransformPackagesRegExp customTransformRules transformWithBabel
                transformWithSwc isFlow n' args w))
  end.

(** [demoWorld] with [a.js] turned into something that opens but whose
    [stat] rejects. *)
Definition statFailsWorld : World :=
  setFiles {[ "a.js" := {| mtimeMs := 1; text := ""; statOk := false;
                           readOk := true; closeOk := true;
                           rejection := ioError |} ]} demoWorld.

(** [warmDiskWorld] with [a.js] on a disk where the [close] of its handle
    rejects. *)
Definition closeFailsWorld : World :=
  setFiles {[ "a.js" := {| mtimeMs := 1; text := "const a = 1"; statOk := true;
                           readOk := true; closeOk := false;
                           rejection := ioError |} ]} warmDiskWorld.

(** [demoWorld] with a directory called [a.js]: it opens and stats, and
    [readFile] rejects with [EISDIR]. *)
Definition directoryWorld : World :=
  setFiles {[ "a.js" := {| mtimeMs := 1; text := ""; statOk := true;
                           readOk := false; closeOk := true;
                           rejection := SystemError "EISDIR" |} ]} demoWorld.

(** A custom rule that accepts no file. *)
Definition idleRule : CustomTransformRule :=
  {| test := fun _ _ => false; rulePlugins := ["some-plugin"] |}.

(** A custom rule for every [.js] file. *)
Definition jsRule : CustomTransformRule :=
  {| test := fun p _ => endsWith ".js" p; rulePlugins := ["plugin-a"] |}.

(** A Babel whose output shows the plugins it was given. *)
Definition markingBabel (source : string) (args : OnLoadArgs) (o : BabelOptions)
  : Completion string :=
  Return (String.concat "," (default [] (plugins o)) +:+ ":" +:+ source).





(** A transformer that always throws. *)
Definition failingSwc (source : string) (args : OnLoadArgs) : Completion string :=
  Throw (JsError "swc failed").

(** [resultOnly m]: what [m] returns or throws does not depend on the
    world it runs in. *)
Definition resultOnly {A} (m : M A) : Prop :=
  forall w w0, fst (m w) = fst (m w0).

(** [silent P m]: whatever [m] does, it only adds events to the trace,
    and none of them satisfies [P]. *)
Definition silent {A} (P : Event -> bool) (m : M A) : Prop :=
  forall w, exists evs,
    trace (snd (m w)) = trace w ++ evs /\ List.filter P evs = [].

(** * Copying assets: [copyAssetsToDestination] and its helpers

    The first document of
    [src/packages/plugins/lib/assetRegisterPlugin/helpers/fs.ts] (lines
    1-108) and, from the third document of
    [src/packages/core/lib/bundler/internal/events.ts], [getDevServerBasePath]
    (lines 134-137) and [resolveAssetPath] (lines 201-223).

    A [string] stands for a sequence of UTF-16 code units below 256.  A
    JavaScript number is modelled as the rational it denotes: the code
    only compares scales with [===] and uses them as table keys. *)

Module Assets.

(** [Asset], as far as these functions read it. *)
Record Asset := {
  path : string;
  name : string;
  extension : string;
  scales : list Qcanon.Qc;
  httpServerLocation : string;
  platform : option string
}.

(** [PluginContext], as far as [copyAssetsToDestination] reads it. *)
Record PluginContext := {
  assetsDir : option string;
  mode : string;
  contextPlatform : string
}.

(** The number [n/d]. *)
Definition ratio (n : Z) (d : positive) : Qcanon.Qc :=
  Qcanon.Q2Qc (QArith_base.Qmake n d).

(** The table [ANDROID_ASSET_QUALIFIER], in the order it is written. *)
Definition ANDROID_ASSET_QUALIFIER_TABLE : list (Qcanon.Qc * string) :=
  [(ratio 3 4, "ldpi"); (ratio 1 1, "mdpi"); (ratio 3 2, "hdpi");
   (ratio 2 1, "xhdpi"); (ratio 3 1, "xxhdpi"); (ratio 4 1, "xxxhdpi")].

(** [ANDROID_ASSET_QUALIFIER[scale]]: [None] is [undefined]. *)
Definition ANDROID_ASSET_QUALIFIER (scale : Qcanon.Qc) : option string :=
  snd <$> List.find (fun entry => bool_decide (fst entry = scale))
            ANDROID_ASSET_QUALIFIER_TABLE.

(** *** String methods *)

Fixpoint mapString (f : ascii -> ascii) (s : string) : string :=
  match s with
  | EmptyString => EmptyString
  | String c s' => String (f c) (mapString f s')
  end.

Fixpoint filterString (keep : ascii -> bool) (s : string) : string :=
  match s with
  | EmptyString => EmptyString
  | String c s' =>
      if keep c then String c (filterString keep s') else filterString keep s'
  end.

Fixpoint allChars (p : ascii -> bool) (s : string) : bool :=
  match s with
  | EmptyString => true
  | String c s' => p c && allChars p s'
  end.

(** [toLowerCase] on one code unit below 256: [A-Z], and the Latin-1
    capitals U+00C0 to U+00DE except the multiplication sign U+00D7, move
    up by 32. *)
Definition lowerCodeUnit (c : ascii) : ascii :=
  let n := N_of_ascii c in
  if ((65 <=? n) && (n <=? 90)
      || (192 <=? n) && (n <=? 222) && negb (n =? 215))%N
  then ascii_of_N (n + 32)
  else c.

Definition toLowerCase (s : string) : string := mapString lowerCodeUnit s.

(** [.replace(/\//g, '_')] *)
Definition slashesToUnderscores (s : string) : string :=
  mapString (fun c => if Ascii.eqb c "/" then "_"%char else c) s.

(** The class [[a-z0-9_]]. *)
Definition isResourceChar (c : ascii) : bool :=
  let n := N_of_ascii c in
  ((97 <=? n) && (n <=? 122) || (48 <=? n) && (n <=? 57) || (n =? 95))%N.

(** [.replace(/(?:[^a-z0-9_])/g, '')] *)
Definition dropOtherChars (s : string) : string := filterString isResourceChar s.

(** [s] without the leading [pre], when it starts with [pre]. *)
Fixpoint dropPrefix (pre s : string) : option string :=
  match pre, s with
  | EmptyString, _ => Some s
  | String a pre', String b s' =>
      if Ascii.eqb a b then dropPrefix pre' s' else None
  | String _ _, EmptyString => None
  end.

(** [.replace(/^assets_/, '')] *)
Definition stripAssetsPrefix (s : string) : string :=
  default s (dropPrefix "assets_" s).

(** The chain of string methods that yields [assetName] (lines 70-75),
    before the extension is appended. *)
Definition resourceStem (s : string) : string :=
  stripAssetsPrefix (dropOtherChars (slashesToUnderscores (toLowerCase s))).

(** [getDevServerBasePath] (events.ts, lines 134-137). *)
Definition getDevServerBasePath (asset : Asset) : string :=
  match httpServerLocation asset with
  | String "/" rest => rest
  | basePath => basePath
  end.

(** [assetName] of the Android branch (lines 69-75). *)
Definition androidAssetName (asset : Asset) : string :=
  resourceStem (getDevServerBasePath asset +:+ "/" +:+ name asset)
  +:+ extension asset.

(** [/\.(?:png|jpg|jpeg|gif|xml)$/.test(asset.extension)] *)
Definition isDrawable (ext : string) : bool :=
  existsb (fun suffix => endsWith suffix ext)
    [".png"; ".jpg"; ".jpeg"; ".gif"; ".xml"].

(** *** File-system calls as a program

    A task is the sequence of [node:fs/promises] calls it awaits, each
    continued on the way the call settles.  How calls of different tasks
    interleave, and what the file system answers, is left open. *)

Inductive FsCall :=
| FsAccess (p : string)
| FsMkdir (p : string)
| FsCopyFile (src dst : string)
| FsStat (p : string).

Inductive Task (A : Type) :=
| Done (a : A)
| Failed (e : Error)
| Await (call : FsCall) (k : Completion unit -> Task A).
Arguments Done {A} a.
Arguments Failed {A} e.
Arguments Await {A} call k.

Fixpoint andThen {A B} (t : Task A) (k : A -> Task B) : Task B :=
  match t with
  | Done a => k a
  | Failed e => Failed e
  | Await call k' => Await call (fun r => andThen (k' r) k)
  end.

(** [await call]: resolves to nothing of interest, or rejects. *)
Definition await (call : FsCall) : Task unit :=
  Await call (fun r => match r with Return _ => Done tt | Throw e => Failed e end).

(** Running a task against a file system that answers each call from
    the calls and answers so far. *)
Fixpoint runTask {A} (respond : list (FsCall * Completion unit) -> FsCall -> Completion unit)
    (history : list (FsCall * Completion unit)) (t : Task A)
  : Completion A * list (FsCall * Completion unit) :=
  match t with
  | Done a => (Return a, history)
  | Failed e => (Throw e, history)
  | Await call k =>
      let r := respond history call in
      runTask respond (history ++ [(call, r)]) (k r)
  end.

(** [everyCall P history t]: whatever the file system answers, each call
    [t] issues satisfies [P] of the calls and answers before it. *)
Fixpoint everyCall {A} (P : list (FsCall * Completion unit) -> FsCall -> Prop)
    (history : list (FsCall * Completion unit)) (t : Task A) : Prop :=
  match t with
  | Done _ | Failed _ => True
  | Await call k =>
      P history call /\ forall r, everyCall P (history ++ [(call, r)]) (k r)
  end.

Section Copy.

(** [path.dirname] and [path.join] of Node. *)
Variable dirname : string -> string.
Variable join : string -> string -> string -> string.
(** [addSuffix(name, extension, { scale })] and
    [getSuffixedPath(path, { scale, platform }).path]: both go through a
    regular expression compiled at run time from the extension; they are
    taken as given functions. *)
Variable addSuffix : string -> string -> Qcanon.Qc -> string.
Variable getSuffixedPath : string -> Qcanon.Qc -> option string -> string.

(** [mkdirWithAssertPath] (lines 39-45). *)
Definition mkdirWithAssertPath (targetPath : string) : Task unit :=
  let dir := dirname targetPath in
  Await (FsAccess dir) (fun r =>
    match r with
    | Return _ => Done tt
    | Throw _ => await (FsMkdir dir)
    end).

(** [resolveAssetPath] (events.ts, lines 201-223). *)
Definition resolveAssetPath (asset : Asset) (targetScale : Qcanon.Qc) : Task string :=
  let suffixedPath := getSuffixedPath (path asset) targetScale (platform asset) in
  if decide (targetScale = ratio 1 1)
  then
    Await (FsStat (path asset)) (fun r =>
      match r with
      | Return _ => Done (path asset)
      | Throw _ =>
          Await (FsStat suffixedPath) (fun r' =>
            match r' with
            | Return _ => Done suffixedPath
            | Throw e => Failed e
            end)
      end)
  else Done suffixedPath.

(** The callback run for each scale of each asset (lines 50-104), for an
    [assetsDir] that is set. *)
Definition copyScale (dir : string) (context : PluginContext) (asset : Asset)
    (scale : Qcanon.Qc) : Task unit :=
  let scaleSuffixedName := addSuffix (name asset) (extension asset) scale in
  if negb (String.eqb (contextPlatform context) "android")
  then
    andThen (resolveAssetPath asset scale) (fun from =>
      let to := join dir (httpServerLocation asset) scaleSuffixedName in
      andThen (mkdirWithAssertPath to) (fun _ =>
        await (FsCopyFile from to)))
  else
    let assetQualifierSuffix := ANDROID_ASSET_QUALIFIER scale in
    let assetName := androidAssetName asset in
    match assetQualifierSuffix with
    | None => Failed (JsError ("invalid asset qualifier: " +:+ path asset))
    | Some qualifier =>
        let drawable := isDrawable (extension asset) in
        let resourceDir := if drawable then "drawable-" +:+ qualifier else "raw" in
        andThen
          (if drawable && bool_decide (scale = ratio 1 1)
           then
             let to := dir +:+ "/drawable/" +:+ assetName in
             andThen (mkdirWithAssertPath to) (fun _ =>
               await (FsCopyFile (path asset) to))
           else Done tt)
          (fun _ =>
             andThen (resolveAssetPath asset scale) (fun from =>
               let to := dir +:+ "/" +:+ resourceDir +:+ "/" +:+ assetName in
               andThen (mkdirWithAssertPath to) (fun _ =>
                 await (FsCopyFile from to))))
    end.

(** What [copyAssetsToDestination] does: nothing, nothing but a warning,
    or all the tasks handed to the two nested [Promise.all]. *)
Inductive CopyPlan :=
| Skip
| WarnAndSkip
| CopyAll (tasks : list (list (Task unit))).

(** [copyAssetsToDestination] (lines 25-108). *)
Definition copyAssetsToDestination (context : PluginContext) (assets : list Asset)
  : CopyPlan :=
  if String.eqb (mode context) "watch" then Skip
  else
    match assetsDir context with
    | None => WarnAndSkip
    | Some dir =>
        if String.eqb dir "" then WarnAndSkip
        else
          CopyAll
            (List.map (fun asset =>
                         List.map (copyScale dir context asset) (scales asset))
               assets)
    end.

End Copy.

(** [asset] under another name. *)
Definition renamed (asset : Asset) (newName : string) : Asset :=
  {| path := path asset; name := newName; extension := extension asset;
     scales := scales asset; httpServerLocation := httpServerLocation asset;
     platform := platform asset |}.

(** [asset] served from another location. *)
Definition servedFrom (asset : Asset) (location : string) : Asset :=
  {| path := path asset; name := name asset; extension := extension asset;
     scales := scales asset; httpServerLocation := location;
     platform := platform asset |}.

(** Stand-ins for the four functions the copy is parametric in, for
    examples: the parent of a path written [p/..], a join with slashes, a
    name that ignores the scale, and a path without suffix. *)
Definition parentOf (p : string) : string := p +:+ "/..".
Definition slashJoin (a b c : string) : string := a +:+ "/" +:+ b +:+ "/" +:+ c.
Definition unscaledName (assetName ext : string) (scale : Qcanon.Qc) : string :=
  assetName +:+ ext.
Definition samePath (p : string) (scale : Qcanon.Qc) (pf : option string) : string := p.

(** A file system on which every call succeeds. *)
Definition allSucceed (history : list (FsCall * Completion unit)) (call : FsCall)
  : Completion unit := Return tt.

(** A file system on which [stat] fails and the rest succeeds. *)
Definition statFails (history : list (FsCall * Completion unit)) (call : FsCall)
  : Completion unit :=
  match call with
  | FsStat _ => Throw (SystemError "ENOENT" "stat")
  | _ => Return tt
  end.

(** An example asset: [img/Logo-1.png] of the project, with two scales. *)
Definition logo : Asset :=
  {| path := "/app/img/Logo-1.png";
     name := "Logo-1";
     extension := ".png";
     scales := [ratio 1 1; ratio 2 1];
     httpServerLocation := "/assets/img";
     platform := None |}.

(** An example asset that is not a drawable. *)
Definition font : Asset :=
  {| path := "/app/fonts/Inter.ttf";
     name := "Inter";
     extension := ".ttf";
     scales := [ratio 1 1];
     httpServerLocation := "/assets/fonts";
     platform := None |}.

Definition iosBundle : PluginContext :=
  {| assetsDir := Some "out/res"; mode := "bundle"; contextPlatform := "ios" |}.

Definition androidBundle : PluginContext :=
  {| assetsDir := Some "out/res"; mode := "bundle"; contextPlatform := "android" |}.

End Assets.

(** * Properties *)

(** ** Frame lemmas *)

Lemma keeps_ret {A X} (f : World -> X) (a : A) : keeps f (ret a).
Proof. intros w. reflexivity. Qed.

Lemma keeps_throw {A X} (f : World -> X) e : keeps f (@throw A e).
Proof. intros w. reflexivity. Qed.

Lemma keeps_bind {A B X} (f : World -> X) (m : M A) (k : A -> M B) :
  keeps f m -> (forall a, keeps f (k a)) -> keeps f (bind m k).
Proof.
  intros Hm Hk w. unfold bind. specialize (Hm w).
  destruct (m w) as [[a|e] w1]; simpl in *.
  - rewrite Hk. exact Hm.
  - exact Hm.
Qed.

Lemma keeps_if {A X} (f : World -> X) (b : bool) (m1 m2 : M A) :
  keeps f m1 -> keeps f m2 -> keeps f (if b then m1 else m2).
Proof. destruct b; auto. Qed.

Lemma keeps_tryFinally {A X} (f : World -> X) (body : M A) (fin : M unit) :
  keeps f body -> keeps f fin -> keeps f (tryFinally body fin).
Proof.
  intros Hb Hf w. unfold tryFinally. specialize (Hb w).
  destruct (body w) as [r w1]. specialize (Hf w1).
  destruct (fin w1) as [[u|e] w2]; simpl in *; congruence.
Qed.

Lemma appends_ret {A} (a : A) : appends (ret a).
Proof. intros w. exists []. simpl. by rewrite app_nil_r. Qed.

Lemma appends_bind {A B} (m : M A) (k : A -> M B) :
  appends m -> (forall a, appends (k a)) -> appends (bind m k).
Proof.
  intros Hm Hk w. unfold bind. destruct (Hm w) as [evs1 H1].
  destruct (m w) as [[a|e] w1]; simpl in *.
  - destruct (Hk a w1) as [evs2 H2]. exists (evs1 ++ evs2).
    by rewrite H2, H1, app_assoc.
  - by exists evs1.
Qed.

Lemma appends_if {A} (b : bool) (m1 m2 : M A) :
  appends m1 -> appends m2 -> appends (if b then m1 else m2).
Proof. destruct b; auto. Qed.

Lemma handleEvents_log ev w :
  handleEvents (log ev w) =
  handleEvents w ++ (if isHandleEvent ev then [ev] else []).
Proof.
  unfold handleEvents, log. simpl. rewrite List.filter_app. simpl.
  destruct (isHandleEvent ev); reflexivity.
Qed.

Lemma transformerCalls_log ev w :
  transformerCalls (log ev w) =
  transformerCalls w ++ (if isTransformerEvent ev then [ev] else []).
Proof.
  unfold transformerCalls, log. simpl. rewrite List.filter_app. simpl.
  destruct (isTransformerEvent ev); reflexivity.
Qed.

(** Closing the handle that [fs.open] allocated restores the set of open
    handles. *)
Lemma close_after_open (X : gset nat) : ({[fresh X]} ∪ X) ∖ {[fresh X]} = X.
Proof.
  pose proof (is_fresh X) as Hfresh.
  apply set_eq. intros x.
  rewrite elem_of_difference, elem_of_union, !elem_of_singleton.
  split; [intros [[->|Hx] Hne]; [congruence | exact Hx]|].
  intros Hx. split; [by right|]. intros ->. exact (Hfresh Hx).
Qed.

(** [stat] and [readFile] only add their own event to the trace. *)
Lemma fhStat_world fh w : snd (fhStat fh w) = log (EvStat (fd fh)) w.
Proof.
  unfold fhStat. destruct (files w !! target fh) as [f|]; [destruct (statOk f)|];
    reflexivity.
Qed.

Lemma fhReadFile_world fh w : snd (fhReadFile fh w) = log (EvReadFile (fd fh)) w.
Proof.
  unfold fhReadFile. destruct (files w !! target fh) as [f|]; [destruct (readOk f)|];
    reflexivity.
Qed.

Lemma fhClose_world fh w :
  snd (fhClose fh w)
  = log (EvClose (fd fh)) (setOpenHandles (openHandles w ∖ {[fd fh]}) w).
Proof.
  unfold fhClose. destruct (files w !! target fh) as [f|]; [destruct (closeOk f)|];
    reflexivity.
Qed.

Lemma tryFinally_world {A} (body : M A) (fin : M unit) w :
  snd (tryFinally body fin w) = snd (fin (snd (body w))).
Proof.
  unfold tryFinally. destruct (body w) as [r w1]. simpl.
  by destruct (fin w1) as [[u|e] w2].
Qed.

Lemma keeps_fhStat fh : keeps handleState (fhStat fh).
Proof.
  intros w. rewrite fhStat_world. unfold handleState.
  rewrite handleEvents_log. simpl. by rewrite app_nil_r.
Qed.

Lemma keeps_fhReadFile fh : keeps handleState (fhReadFile fh).
Proof.
  intros w. rewrite fhReadFile_world. unfold handleState.
  rewrite handleEvents_log. simpl. by rewrite app_nil_r.
Qed.

Lemma keeps_fhStat_calls fh : keeps transformerCalls (fhStat fh).
Proof.
  intros w. rewrite fhStat_world, transformerCalls_log. simpl. by rewrite app_nil_r.
Qed.

Lemma keeps_fhReadFile_calls fh : keeps transformerCalls (fhReadFile fh).
Proof.
  intros w. rewrite fhReadFile_world, transformerCalls_log. simpl.
  by rewrite app_nil_r.
Qed.

Lemma specCache_handleNeutral {Config} (computeHash : HashParam Config -> string) :
  Neutral handleState (specCache computeHash).
Proof.
  split; intros; intros w; simpl; unfold handleState; try reflexivity.
  - rewrite handleEvents_log. simpl. by rewrite app_nil_r.
  - rewrite handleEvents_log. simpl. by rewrite app_nil_r.
  - rewrite handleEvents_log. simpl. by rewrite app_nil_r.
  - destruct (cacheRootWritable w); simpl; rewrite handleEvents_log; simpl;
      by rewrite app_nil_r.
Qed.

Lemma specCache_callsNeutral {Config} (computeHash : HashParam Config -> string) :
  Neutral transformerCalls (specCache computeHash).
Proof.
  split; intros; intros w; simpl; try reflexivity.
  - rewrite transformerCalls_log. simpl. by rewrite app_nil_r.
  - rewrite transformerCalls_log. simpl. by rewrite app_nil_r.
  - rewrite transformerCalls_log. simpl. by rewrite app_nil_r.
  - destruct (cacheRootWritable w); simpl; rewrite transformerCalls_log; simpl;
      by rewrite app_nil_r.
Qed.

(** What the body of the lookup leaves alone, given that [stat], [readFile]
    and the cache manager do. *)
Section Frame.

Context {Config X : Type}.
Variable f : World -> X.
Variable cache : CacheManager Config.
Variable cacheEnabled : bool.
Variable platform : option string.
Variable config : Config.
Hypothesis stat_keeps : forall fh, keeps f (fhStat fh).
Hypothesis readFile_keeps : forall fh, keeps f (fhReadFile fh).
Hypothesis neutral : Neutral f cache.

Lemma keeps_cachedLookup fh args :
  keeps f (cachedLookup cache platform config fh args).
Proof.
  destruct neutral.
  unfold cachedLookup.
  apply keeps_bind; [apply stat_keeps|]. intros mtime.
  apply keeps_bind; [auto|]. intros [entry|].
  - destruct (decide (modifiedAt entry = mtime)); [apply keeps_ret|].
    apply keeps_bind; [apply readFile_keeps|]. intros raw.
    apply keeps_bind; [auto|]. intros h. apply keeps_ret.
  - apply keeps_bind; [auto|]. intros h.
    apply keeps_bind; [auto|]. intros cachedSource.
    apply keeps_if; [|apply keeps_ret].
    apply keeps_bind; [auto|]. intros _. apply keeps_ret.
Qed.

Lemma keeps_lookupBody fh args :
  keeps f (lookupBody cache cacheEnabled platform config fh args).
Proof.
  unfold lookupBody.
  apply keeps_bind.
  - apply keeps_if; [apply keeps_cachedLookup | apply keeps_ret].
  - intros [result|h]; [apply keeps_ret|].
    apply keeps_bind; [apply readFile_keeps|]. intros raw. apply keeps_ret.
Qed.

End Frame.

(** The lookup never runs a transformer. *)
Lemma lookup_keeps_transformerCalls {Config} (cache : CacheManager Config)
    cacheEnabled platform config args :
  Neutral transformerCalls cache ->
  keeps transformerCalls
    (getTransformedSourceFromCache cache cacheEnabled platform config args).
Proof.
  intros Hn w. unfold getTransformedSourceFromCache, fsOpen.
  destruct (files w !! path args) as [f|]; [|reflexivity].
  rewrite keeps_tryFinally.
  - rewrite transformerCalls_log. simpl. by rewrite app_nil_r.
  - apply keeps_lookupBody;
      auto using keeps_fhStat_calls, keeps_fhReadFile_calls.
  - intros w1. rewrite fhClose_world, transformerCalls_log. simpl.
    by rewrite app_nil_r.
Qed.

(** ** C10: the source-file handle is closed on every path *)

Section HandleSafety.

Context {Config : Type}.
Variable cache : CacheManager Config.
Variable cacheEnabled : bool.
Variable platform : option string.
Variable config : Config.
Hypothesis neutral : Neutral handleState cache.

(** C10.  However the lookup ends -- with a result on any of its paths, or
    with an error thrown by [stat], by [readFile], by a method of the
    cache manager or by [close] itself -- the set of open handles is what
    it was before the call, and the only handle events of the call are the open of the source
    file followed by the close of that same handle (none at all when
    [fs.open] itself rejects).  [neutral] says that the cache manager does
    not itself open or close source-file handles. *)
Theorem lookup_always_closes_handle (args : OnLoadArgs) (w : World) :
  let w' := snd (getTransformedSourceFromCache cache cacheEnabled platform config args w) in
  let d := fresh (openHandles w) in
  openHandles w' = openHandles w /\
  handleEvents w' =
    handleEvents w ++
      match files w !! path args with
      | Some _ => [EvOpen (path args) d; EvClose d]
      | None => []
      end.
Proof.
  simpl. unfold getTransformedSourceFromCache, fsOpen.
  destruct (files w !! path args) as [f|] eqn:Hf; simpl.
  2:{ split; [reflexivity | by rewrite app_nil_r]. }
  set (d := fresh (openHandles w)).
  set (w1 := log (EvOpen (path args) d) (setOpenHandles ({[d]} ∪ openHandles w) w)).
  set (fh := {| fd := d; target := path args |}).
  rewrite tryFinally_world, fhClose_world.
  pose proof (keeps_lookupBody handleState cache cacheEnabled platform config
                keeps_fhStat keeps_fhReadFile neutral fh args w1) as Hk.
  set (w2 := snd (lookupBody cache cacheEnabled platform config fh args w1)) in *.
  unfold handleState in Hk. injection Hk as Hopen Hev.
  split.
  - simpl. rewrite Hopen. subst w1 d. simpl. apply close_after_open.
  - rewrite handleEvents_log. simpl.
    assert (handleEvents (setOpenHandles (openHandles w2 ∖ {[d]}) w2)
            = handleEvents w2) as -> by reflexivity.
    rewrite Hev. subst w1. rewrite handleEvents_log. simpl.
    assert (handleEvents (setOpenHandles ({[d]} ∪ openHandles w) w)
            = handleEvents w) as -> by reflexivity.
    by rewrite <- app_assoc.
Qed.

End HandleSafety.

(** ** The paths of the lookup *)

Ltac run_lookup :=
  unfold getTransformedSourceFromCache, fsOpen, tryFinally, lookupBody,
    cachedLookup, bind, ret, fhStat, fhReadFile, fhClose; simpl.

(** Two worlds with the same fields are equal. *)
Lemma world_eq (w1 w2 : World) :
  files w1 = files w2 ->
  openHandles w1 = openHandles w2 ->
  memory w1 = memory w2 ->
  cacheRoot w1 = cacheRoot w2 ->
  cacheRootWritable w1 = cacheRootWritable w2 ->
  trace w1 = trace w2 ->
  w1 = w2.
Proof. destruct w1, w2. simpl. by intros -> -> -> -> -> ->. Qed.

Ltac finish_lookup :=
  f_equal; apply world_eq; simpl; try reflexivity;
  rewrite <- ?app_assoc; reflexivity.

(** The [finally] block: [close] resolves or rejects as the file says. *)
Ltac close_lookup Hf :=
  simpl; rewrite ?Hf; unfold closing;
  match goal with
  | |- context [closeOk ?f] => destruct (closeOk f)
  end; finish_lookup.

Section Coordinator.

Context {Config : Type}.
Variable computeHash : HashParam Config -> string.
Variable platform : option string.
Variable config : Config.

Abbreviation lookupWith enabled :=
  (getTransformedSourceFromCache (specCache computeHash) enabled platform config).
Abbreviation lookup := (lookupWith true).
Abbreviation keyOf args := (memoryCacheKey (path args) platform).
Abbreviation hashOf args mtime := (computeHash (platform, config, path args, mtime)).

Lemma lookup_disabled (cache : CacheManager Config) args w f :
  files w !! path args = Some f ->
  readOk f = true ->
  getTransformedSourceFromCache cache false platform config args w =
    (closing f (Return {| contents := text f; fromCache := false; hash := None |}),
     afterLookup args (fun d => [EvReadFile d]) (memory w) w).
Proof.
  intros Hf Hr. run_lookup. rewrite Hf. simpl. rewrite Hf, Hr.
  close_lookup Hf.
Qed.

Lemma lookup_memory_hit args w f e :
  files w !! path args = Some f ->
  statOk f = true ->
  memory w !! keyOf args = Some e ->
  modifiedAt e = mtimeMs f ->
  lookup args w =
    (closing f (Return {| contents := data e; fromCache := true; hash := None |}),
     afterLookup args (fun d => [EvStat d; EvMemoryRead (keyOf args)]) (memory w) w).
Proof.
  intros Hf Hs He Hm. run_lookup. rewrite Hf. simpl. rewrite Hf, Hs. simpl.
  rewrite He. destruct (decide (modifiedAt e = mtimeMs f)); [|done].
  close_lookup Hf.
Qed.

Lemma lookup_stale args w f e :
  files w !! path args = Some f ->
  statOk f = true ->
  readOk f = true ->
  memory w !! keyOf args = Some e ->
  modifiedAt e <> mtimeMs f ->
  lookup args w =
    (closing f (Return {| contents := text f; fromCache := false;
                          hash := Some (hashOf args (mtimeMs f)) |}),
     afterLookup args
       (fun d => [EvStat d; EvMemoryRead (keyOf args); EvReadFile d])
       (memory w) w).
Proof.
  intros Hf Hs Hr He Hm. run_lookup. rewrite Hf. simpl. rewrite Hf, Hs. simpl.
  rewrite He. destruct (decide (modifiedAt e = mtimeMs f)); [done|].
  simpl. rewrite Hf, Hr. close_lookup Hf.
Qed.

Lemma lookup_filesystem_hit args w f c :
  files w !! path args = Some f ->
  statOk f = true ->
  memory w !! keyOf args = None ->
  cacheRoot w !! hashOf args (mtimeMs f) = Some c ->
  c <> "" ->
  let entry := {| data := c; modifiedAt := mtimeMs f |} in
  lookup args w =
    (closing f (Return {| contents := c; fromCache := true; hash := None |}),
     afterLookup args
       (fun d => [EvStat d; EvMemoryRead (keyOf args);
                  EvFsRead (hashOf args (mtimeMs f));
                  EvMemoryWrite (keyOf args) entry])
       (<[keyOf args := entry]> (memory w)) w).
Proof.
  intros Hf Hs He Hc Hne. run_lookup. rewrite Hf. simpl. rewrite Hf, Hs. simpl.
  rewrite He. simpl. rewrite Hc. simpl.
  destruct (String.eqb_spec c ""); [done|]. simpl.
  close_lookup Hf.
Qed.

Lemma lookup_full_miss args w f :
  files w !! path args = Some f ->
  statOk f = true ->
  readOk f = true ->
  memory w !! keyOf args = None ->
  truthy (cacheRoot w !! hashOf args (mtimeMs f)) = false ->
  lookup args w =
    (closing f (Return {| contents := text f; fromCache := false;
                          hash := Some (hashOf args (mtimeMs f)) |}),
     afterLookup args
       (fun d => [EvStat d; EvMemoryRead (keyOf args);
                  EvFsRead (hashOf args (mtimeMs f)); EvReadFile d])
       (memory w) w).
Proof.
  intros Hf Hs Hr He Hc. run_lookup. rewrite Hf. simpl. rewrite Hf, Hs. simpl.
  rewrite He. simpl. rewrite Hc. simpl. rewrite Hf, Hr.
  close_lookup Hf.
Qed.

(** The paths on which the lookup throws. *)
Lemma lookup_open_error (cache : CacheManager Config) enabled args w :
  files w !! path args = None ->
  getTransformedSourceFromCache cache enabled platform config args w
  = (Throw (SystemError "ENOENT" "open"), w).
Proof. intros Hf. run_lookup. by rewrite Hf. Qed.

Lemma lookup_stat_error (cache : CacheManager Config) args w f :
  files w !! path args = Some f ->
  statOk f = false ->
  getTransformedSourceFromCache cache true platform config args w =
    (closing f (Throw (rejection f "fstat")),
     afterLookup args (fun d => [EvStat d]) (memory w) w).
Proof.
  intros Hf Hs. run_lookup. rewrite Hf. simpl. rewrite Hf, Hs. close_lookup Hf.
Qed.

Lemma lookup_disabled_read_error (cache : CacheManager Config) args w f :
  files w !! path args = Some f ->
  readOk f = false ->
  getTransformedSourceFromCache cache false platform config args w =
    (closing f (Throw (rejection f "read")),
     afterLookup args (fun d => [EvReadFile d]) (memory w) w).
Proof.
  intros Hf Hr. run_lookup. rewrite Hf. simpl. rewrite Hf, Hr. close_lookup Hf.
Qed.

Lemma lookup_stale_read_error args w f e :
  files w !! path args = Some f ->
  statOk f = true ->
  readOk f = false ->
  memory w !! keyOf args = Some e ->
  modifiedAt e <> mtimeMs f ->
  lookup args w =
    (closing f (Throw (rejection f "read")),
     afterLookup args
       (fun d => [EvStat d; EvMemoryRead (keyOf args); EvReadFile d])
       (memory w) w).
Proof.
  intros Hf Hs Hr He Hm. run_lookup. rewrite Hf. simpl. rewrite Hf, Hs. simpl.
  rewrite He. destruct (decide (modifiedAt e = mtimeMs f)); [done|].
  simpl. rewrite Hf, Hr. close_lookup Hf.
Qed.

Lemma lookup_miss_read_error args w f :
  files w !! path args = Some f ->
  statOk f = true ->
  readOk f = false ->
  memory w !! keyOf args = None ->
  truthy (cacheRoot w !! hashOf args (mtimeMs f)) = false ->
  lookup args w =
    (closing f (Throw (rejection f "read")),
     afterLookup args
       (fun d => [EvStat d; EvMemoryRead (keyOf args);
                  EvFsRead (hashOf args (mtimeMs f)); EvReadFile d])
       (memory w) w).
Proof.
  intros Hf Hs Hr He Hc. run_lookup. rewrite Hf. simpl. rewrite Hf, Hs. simpl.
  rewrite He. simpl. rewrite Hc. simpl. rewrite Hf, Hr. close_lookup Hf.
Qed.

(** A returned completion went through a [close] that resolved. *)
Lemma closing_Return_inv {A} (f : SourceFile) (r : Completion A) (a : A) :
  closing f r = Return a -> closeOk f = true /\ r = Return a.
Proof. unfold closing. by destruct (closeOk f). Qed.


(** ** C2: a hit needs the recorded modification time to be current *)


(** ** C4: the lookup with caching disabled *)

(** C4.  With caching disabled, whatever the tiers hold and whatever the
    cache manager is, the lookup of a readable file reports a miss with the
    raw text and no hash ([closing]: unless the [close] of the [finally]
    block rejects, whose error then replaces the result); either way the
    tiers are unchanged and the only operations of the call are the open,
    the read and the close of the source file, so no method of the cache
    manager ran. *)
Theorem disabled_lookup_bypasses_tiers (cache : CacheManager Config) args w f :
  files w !! path args = Some f ->
  readOk f = true ->
  exists w',
    getTransformedSourceFromCache cache false platform config args w =
      (closing f (Return {| contents := text f; fromCache := false; hash := None |}),
       w') /\
    memory w' = memory w /\
    cacheRoot w' = cacheRoot w /\
    exists d, trace w' = trace w ++ [EvOpen (path args) d; EvReadFile d; EvClose d].
Proof.
  intros Hf Hr. eexists. split; [apply (lookup_disabled cache args w f Hf Hr)|].
  repeat split. by eexists.
Qed.

(** ** C5: a stale Memory Tier entry *)

(** C5.  When the Memory Tier has an entry for the file whose recorded
    modification time differs from the current one, the lookup returns the
    raw text with the hash computed for the current modification time
    ([closing]: unless the [close] of the [finally] block rejects, whose
    error then replaces the result); either way the Memory Tier is exactly
    what it was (the stale entry included), the on-disk cache is unchanged,
    and the only tier operation of the call is the read of the Memory Tier:
    the on-disk cache is not read. *)
Theorem stale_entry_skips_filesystem args w f e :
  files w !! path args = Some f ->
  statOk f = true ->
  readOk f = true ->
  memory w !! keyOf args = Some e ->
  modifiedAt e <> mtimeMs f ->
  exists w' evs,
    lookup args w =
      (closing f (Return {| contents := text f; fromCache := false;
                            hash := Some (hashOf args (mtimeMs f)) |}), w') /\
    memory w' = memory w /\
    memory w' !! keyOf args = Some e /\
    cacheRoot w' = cacheRoot w /\
    trace w' = trace w ++ evs /\
    List.filter isTierEvent evs = [EvMemoryRead (keyOf args)].
Proof.
  intros Hf Hs Hr He Hm. eexists _, _.
  split; [apply (lookup_stale args w f e); done|].
  repeat split; done.
Qed.

(** ** Promotion of an on-disk entry (C6, for entries that are not empty) *)

(** With no Memory Tier entry and a non-empty on-disk entry under the hash
    of the file's current state, the lookup serves that entry (unless
    [close] rejects), records it in the Memory Tier with the current
    modification time, and a second lookup is answered from the Memory Tier
    alone. *)
Lemma filesystem_hit_promotes args w f c :
  files w !! path args = Some f ->
  statOk f = true ->
  memory w !! keyOf args = None ->
  cacheRoot w !! hashOf args (mtimeMs f) = Some c ->
  c <> "" ->
  exists w1 w2 evs,
    lookup args w =
      (closing f (Return {| contents := c; fromCache := true; hash := None |}), w1) /\
    memory w1 !! keyOf args = Some {| data := c; modifiedAt := mtimeMs f |} /\
    lookup args w1 =
      (closing f (Return {| contents := c; fromCache := true; hash := None |}), w2) /\
    trace w2 = trace w1 ++ evs /\
    List.filter isTierEvent evs = [EvMemoryRead (keyOf args)].
Proof.
  intros Hf Hs He Hc Hne. eexists _, _, _.
  split; [apply (lookup_filesystem_hit args w f c); done|].
  split; [apply lookup_insert_eq|].
  split.
  - apply (lookup_memory_hit args _ f {| data := c; modifiedAt := mtimeMs f |});
      try done.
    apply lookup_insert_eq.
  - split; reflexivity.
Qed.

End Coordinator.

(** ** The store and the [onLoad] callback *)

Section Store.

Context {Config : Type}.
Variable computeHash : HashParam Config -> string.
Variable platform : option string.
Variable config : Config.
Variable stripFlowPackageNamesRegExp : option (string -> bool).
Variable fullyTransformPackagesRegExp : option (string -> bool).
Variable customTransformRules : list CustomTransformRule.
Variable transformWithBabel : string -> OnLoadArgs -> BabelOptions -> Completion string.
Variable transformWithSwc : string -> OnLoadArgs -> Completion string.
Variable isFlow : string -> string -> bool.

Abbreviation transforms :=
  (applyTransforms stripFlowPackageNamesRegExp fullyTransformPackagesRegExp
     customTransformRules transformWithBabel transformWithSwc isFlow).
Abbreviation transformSourceWith cache enabled :=
  (transformSource cache enabled stripFlowPackageNamesRegExp
     fullyTransformPackagesRegExp customTransformRules transformWithBabel
     transformWithSwc isFlow).
Abbreviation onLoadWith cache enabled :=
  (onLoad cache enabled platform config stripFlowPackageNamesRegExp
     fullyTransformPackagesRegExp customTransformRules transformWithBabel
     transformWithSwc isFlow).
Abbreviation theCache := (specCache computeHash).

Lemma keeps_babel_storage source args o :
  keeps storage (babel transformWithBabel source args o).
Proof. intros w. reflexivity. Qed.

Lemma keeps_swc_storage source args :
  keeps storage (swc transformWithSwc source args).
Proof. intros w. reflexivity. Qed.

Lemma keeps_applyCustomRules_storage rules args source :
  keeps storage (applyCustomRules transformWithBabel rules args source).
Proof.
  revert source. induction rules as [|rule rest IH]; intros source; simpl.
  - apply keeps_ret.
  - apply keeps_bind; [|intros s; apply IH].
    apply keeps_if; [apply keeps_babel_storage | apply keeps_ret].
Qed.

(** The transformers change neither the files nor the tiers. *)
Lemma keeps_applyTransforms_storage args raw : keeps storage (transforms args raw).
Proof.
  unfold applyTransforms.
  apply keeps_bind.
  { apply keeps_if; [|apply keeps_ret].
    apply keeps_bind; [apply keeps_babel_storage|]. intros s. apply keeps_ret. }
  intros st. apply keeps_bind.
  { apply keeps_if; [apply keeps_babel_storage | apply keeps_ret]. }
  intros s. apply keeps_bind; [apply keeps_applyCustomRules_storage|].
  intros s'. apply keeps_swc_storage.
Qed.

(** The store with caching on, over the cache manager of the spec. *)
Lemma transformSource_enabled args raw h w :
  transformSourceWith theCache true args raw (Some h) w =
    match transforms args raw w with
    | (Return source, w1) =>
        (Return source,
         if cacheRootWritable w1
         then log (EvFsWrite h source) (setCacheRoot (<[h := source]> (cacheRoot w1)) w1)
         else log (EvFsWriteFailed h) w1)
    | (Throw e, w1) => (Throw e, w1)
    end.
Proof.
  unfold transformSource, bind. destruct (transforms args raw w) as [[source|e] w1];
    [|reflexivity].
  simpl. destruct (cacheRootWritable w1); reflexivity.
Qed.

(** The transformers only append to the trace. *)
Lemma appends_applyTransforms args raw : appends (transforms args raw).
Proof.
  assert (Hb : forall s o, appends (babel transformWithBabel s args o)).
  { intros s o w. by eexists. }
  assert (Hrules : forall rules s,
             appends (applyCustomRules transformWithBabel rules args s)).
  { induction rules as [|rule rest IH]; intros s; simpl.
    - apply appends_ret.
    - apply appends_bind; [|intros s'; apply IH].
      apply appends_if; [apply Hb | apply appends_ret]. }
  unfold applyTransforms.
  apply appends_bind.
  { apply appends_if; [|apply appends_ret].
    apply appends_bind; [apply Hb|]. intros s. apply appends_ret. }
  intros st. apply appends_bind.
  { apply appends_if; [apply Hb | apply appends_ret]. }
  intros s. apply appends_bind; [apply Hrules|].
  intros s' w. by eexists.
Qed.

(** ** C1: what the store writes *)

(** What the store does write.  With caching enabled and a writable cache
    root, when the transformers produce [txt] the store step returns [txt];
    afterwards
    the read of the on-disk cache under the hash returns [txt], and the
    Memory Tier is exactly what it was before the store: every read of it
    returns what it returned before. *)
Theorem store_writes_filesystem_tier args raw h w txt :
  cacheRootWritable w = true ->
  fst (applyTransforms stripFlowPackageNamesRegExp fullyTransformPackagesRegExp
         customTransformRules transformWithBabel transformWithSwc isFlow args raw w) = Return txt ->
  exists w',
    transformSource (specCache computeHash) true stripFlowPackageNamesRegExp
        fullyTransformPackagesRegExp customTransformRules transformWithBabel
        transformWithSwc isFlow args raw (Some h) w = (Return txt, w') /\
    fst (readFromFileSystem (specCache computeHash) h w') = Return (Some txt) /\
    memory w' = memory w /\
    (forall key, fst (readFromMemory (specCache computeHash) key w') =
                 fst (readFromMemory (specCache computeHash) key w)).
Proof.
  intros Hw Ht. rewrite transformSource_enabled.
  pose proof (keeps_applyTransforms_storage args raw w) as Hk.
  destruct (transforms args raw w) as [r w1]. simpl in Ht. subst r.
  unfold storage in Hk. simpl in Hk. injection Hk as Hfiles Hopen Hmem Hroot Hwr.
  rewrite Hwr, Hw. eexists. split; [reflexivity|]. simpl.
  rewrite lookup_insert_eq, Hmem. done.
Qed.

(** ** C8: a failing write to the on-disk cache *)

(** C8.  With caching enabled and a cache root that rejects writes, when
    the transformers produce [txt] the store step still returns [txt]: the
    write is attempted, fails (the last event of the call), leaves the
    on-disk cache as it was, and does not throw.  The [onLoad] callback of
    a lookup that missed then returns [txt] as the contents to bundle. *)
Theorem failed_cache_write_is_not_fatal args raw h w txt :
  cacheRootWritable w = false ->
  fst (applyTransforms stripFlowPackageNamesRegExp fullyTransformPackagesRegExp
         customTransformRules transformWithBabel transformWithSwc isFlow args raw w) = Return txt ->
  exists w',
    transformSource (specCache computeHash) true stripFlowPackageNamesRegExp
        fullyTransformPackagesRegExp customTransformRules transformWithBabel
        transformWithSwc isFlow args raw (Some h) w = (Return txt, w') /\
    cacheRoot w' = cacheRoot w /\
    (exists evs, trace w' = trace w ++ evs ++ [EvFsWriteFailed h]) /\
    (forall w0,
        getTransformedSourceFromCache (specCache computeHash) true platform config args w0 =
          (Return {| contents := raw; fromCache := false; hash := Some h |}, w) ->
        onLoad (specCache computeHash) true platform config stripFlowPackageNamesRegExp
        fullyTransformPackagesRegExp customTransformRules transformWithBabel
        transformWithSwc isFlow args w0 =
          (Return {| resultContents := txt; loader := "js" |}, w')).
Proof.
  intros Hw Ht.
  pose proof (keeps_applyTransforms_storage args raw w) as Hk.
  pose proof (appends_applyTransforms args raw w) as [evs Hevs].
  pose proof (transformSource_enabled args raw h w) as Hts.
  destruct (transforms args raw w) as [r w1] eqn:Etr. simpl in Ht. subst r.
  unfold storage in Hk. simpl in Hk, Hevs.
  injection Hk as Hfiles Hopen Hmem Hroot Hwr.
  rewrite Hwr, Hw in Hts.
  eexists. split; [exact Hts|]. simpl.
  split; [exact Hroot|]. split.
  - exists evs. by rewrite Hevs, app_assoc.
  - intros w0 Hl. unfold onLoad, bind. rewrite Hl. simpl.
    fold (bind (A:=string) (B:=OnLoadResult)).
    change (match transformSourceWith theCache true args raw (Some h) w with
            | (Return a, w') => (Return {| resultContents := a; loader := "js" |}, w')
            | (Throw e, w') => (Throw e, w')
            end = (Return {| resultContents := txt; loader := "js" |},
                   log (EvFsWriteFailed h) w1)).
    by rewrite Hts.
Qed.

(** [transformSource] itself does not catch anything: what keeps a failed
    write from being fatal is that the cache manager does not throw.  With
    a cache manager whose write throws, the store step throws too. *)
Lemma store_propagates_cache_errors (cache : CacheManager Config) args raw h w txt w1 e w2 :
  transforms args raw w = (Return txt, w1) ->
  writeToFileSystem cache h txt w1 = (Throw e, w2) ->
  transformSourceWith cache true args raw (Some h) w = (Throw e, w2).
Proof.
  intros Ht Hw. unfold transformSource, bind. by rewrite Ht, Hw.
Qed.

(** ** C9: a hit skips the transformers *)

(** C9.  When the lookup reports a hit (from either tier), [onLoad] returns
    the cached contents as they are, in the very world the lookup left
    behind, and no transformer call was added to the trace. *)
Theorem cache_hit_skips_transformer enabled args w r w1 :
  getTransformedSourceFromCache (specCache computeHash) enabled platform config args w = (Return r, w1) ->
  fromCache r = true ->
  onLoad (specCache computeHash) enabled platform config stripFlowPackageNamesRegExp
        fullyTransformPackagesRegExp customTransformRules transformWithBabel
        transformWithSwc isFlow args w =
    (Return {| resultContents := contents r; loader := "js" |}, w1) /\
  transformerCalls w1 = transformerCalls w.
Proof.
  intros Hl Hhit. split.
  - unfold onLoad, bind. rewrite Hl, Hhit. reflexivity.
  - pose proof (lookup_keeps_transformerCalls theCache enabled platform config args
                  (specCache_callsNeutral computeHash) w) as Hk.
    by rewrite Hl in Hk.
Qed.

(** ** C3: no load succeeds with caching disabled *)

(** C3.  With caching disabled, for any cache manager: (1) [transformSource]
    called without a hash throws 'hash is required for caching' and leaves
    the world untouched, so no transformer ran; (2) the lookup of a
    readable file reports a miss with no hash, and [onLoad] then ends with
    that error in the world the lookup left behind ([closing]: when the
    [close] of the [finally] block rejects, the lookup and [onLoad] end
    with the error of [close] instead); (3) whatever the state of the file,
    [onLoad] throws, and no transformer call was added to the trace. *)
Theorem disabled_cache_fails_every_load (cache : CacheManager Config) args :
  (forall raw w,
      transformSource cache false stripFlowPackageNamesRegExp
        fullyTransformPackagesRegExp customTransformRules transformWithBabel
        transformWithSwc isFlow args raw None w =
        (Throw (JsError "hash is required for caching"), w))
  /\
  (forall w f,
      files w !! path args = Some f ->
      readOk f = true ->
      exists w1,
        getTransformedSourceFromCache cache false platform config args w =
          (closing f (Return {| contents := text f; fromCache := false; hash := None |}),
           w1) /\
        onLoad cache false platform config stripFlowPackageNamesRegExp
        fullyTransformPackagesRegExp customTransformRules transformWithBabel
        transformWithSwc isFlow args w =
          (closing f (Throw (JsError "hash is required for caching")), w1) /\
        transformerCalls w1 = transformerCalls w)
  /\
  (forall w, exists e w',
      onLoad cache false platform config stripFlowPackageNamesRegExp
        fullyTransformPackagesRegExp customTransformRules transformWithBabel
        transformWithSwc isFlow args w = (Throw e, w') /\
      transformerCalls w' = transformerCalls w).
Proof.
  assert (Hcalls : forall w steps mem,
             (forall d, List.filter isTransformerEvent (steps d) = []) ->
             transformerCalls (afterLookup args steps mem w) = transformerCalls w).
  { intros w steps mem Hsteps. unfold transformerCalls, afterLookup. simpl.
    rewrite List.filter_app. simpl. rewrite List.filter_app, Hsteps. simpl.
    by rewrite app_nil_r. }
  split; [reflexivity|]. split.
  - intros w f Hf Hr. eexists. split; [apply (lookup_disabled platform config cache args w f Hf Hr)|].
    split.
    + unfold onLoad, bind.
      rewrite (lookup_disabled platform config cache args w f Hf Hr).
      unfold closing. by destruct (closeOk f).
    + by apply Hcalls.
  - intros w. destruct (files w !! path args) as [f|] eqn:Hf.
    + destruct (readOk f) eqn:Hr.
      * pose proof (lookup_disabled platform config cache args w f Hf Hr) as Hl.
        unfold closing in Hl.
        destruct (closeOk f); eexists _, _;
          (split; [unfold onLoad, bind; rewrite Hl; reflexivity | by apply Hcalls]).
      * pose proof (lookup_disabled_read_error platform config cache args w f Hf Hr)
          as Hl.
        unfold closing in Hl.
        destruct (closeOk f); eexists _, _;
          (split; [unfold onLoad, bind; rewrite Hl; reflexivity | by apply Hcalls]).
    + eexists _, _. split.
      * unfold onLoad, bind.
        by rewrite (lookup_open_error platform config cache false args w Hf).
      * reflexivity.
Qed.

End Store.

(** ** C7: the Memory Tier key *)

Lemma append_cons (c : ascii) (s t : string) :
  String c s +:+ t = String c (s +:+ t).
Proof. reflexivity. Qed.

Lemma length_append (s t : string) :
  String.length (s +:+ t) = (String.length s + String.length t)%nat.
Proof.
  induction s as [|c s IH]; [reflexivity|].
  rewrite append_cons. simpl. by rewrite IH.
Qed.

Lemma append_empty_r (s : string) : s +:+ "" = s.
Proof.
  induction s as [|c s IH]; [reflexivity|]. by rewrite append_cons, IH.
Qed.

(** Two strings with a common ending agree on what comes before it. *)
Lemma append_inj_l (t s1 s2 : string) : s1 +:+ t = s2 +:+ t -> s1 = s2.
Proof.
  revert s2. induction s1 as [|c s1 IH]; intros [|c' s2] H.
  - reflexivity.
  - apply (f_equal String.length) in H.
    rewrite !length_append in H. simpl in H. lia.
  - apply (f_equal String.length) in H.
    rewrite !length_append in H. simpl in H. lia.
  - rewrite !append_cons in H. injection H as -> H. f_equal. by apply IH.
Qed.

Lemma lastChar_append (s t : string) (c : ascii) :
  lastChar t = Some c -> lastChar (s +:+ t) = Some c.
Proof.
  intros Ht. induction s as [|a s IH]; [exact Ht|].
  rewrite append_cons. simpl.
  destruct (s +:+ t) eqn:E; [discriminate IH | exact IH].
Qed.

Lemma endsWith_append (suffix s : string) :
  endsWith suffix s = true -> exists q, s = q +:+ suffix.
Proof.
  induction s as [|a s IH]; cbn [endsWith].
  - destruct (String.eqb_spec "" suffix) as [<-|_]; [|discriminate].
    intros _. by exists "".
  - destruct (String.eqb_spec (String a s) suffix) as [<-|_].
    + intros _. by exists "".
    + intros H. destruct (IH H) as [q ->]. by exists (String a q).
Qed.

(** A path the [onLoad] filter lets through ends in [s] or [x]. *)
Lemma loadFilter_lastChar (p : string) :
  loadFilter p = true ->
  lastChar p = Some "s"%char \/ lastChar p = Some "x"%char.
Proof.
  unfold loadFilter. rewrite existsb_exists. intros (ext & Hin & Hends).
  destruct (endsWith_append _ _ Hends) as [q ->].
  simpl in Hin.
  destruct Hin as [<-|[<-|[<-|[<-|[<-|[<-|[]]]]]]];
    ((left; by apply lastChar_append) || (right; by apply lastChar_append)).
Qed.

Lemma esbuildPlatform_cases (pf : option string) :
  esbuildPlatform pf = true ->
  pf = None \/ pf = Some "browser" \/ pf = Some "node" \/ pf = Some "neutral".
Proof.
  destruct pf as [s|]; [|by left]. simpl. intros H.
  apply bool_decide_eq_true in H.
  rewrite !elem_of_cons, elem_of_nil in H.
  destruct H as [->|[->|[->|[]]]]; auto.
Qed.

(** C7.  The key is the bare concatenation of the path and the platform,
    an absent platform counting as the empty string.  The lookup only runs
    for paths that pass the [onLoad] filter, with a platform esbuild
    allows, and for those (3) two different pairs always have different
    keys.  For any strings at all, (1) two pairs with the same platform
    and different paths have different keys, and (2) two pairs with the
    same path have different keys as soon as their platforms differ as
    strings. *)
Theorem memoryCacheKey_separates :
  (forall p1 p2 pf, p1 <> p2 -> memoryCacheKey p1 pf <> memoryCacheKey p2 pf)
  /\
  (forall p pf1 pf2,
      default "" pf1 <> default "" pf2 ->
      memoryCacheKey p pf1 <> memoryCacheKey p pf2)
  /\
  (forall p1 p2 pf1 pf2,
      loadFilter p1 = true -> loadFilter p2 = true ->
      esbuildPlatform pf1 = true -> esbuildPlatform pf2 = true ->
      (p1, pf1) <> (p2, pf2) ->
      memoryCacheKey p1 pf1 <> memoryCacheKey p2 pf2).
Proof.
  unfold memoryCacheKey. split; [|split].
  - intros p1 p2 pf Hne Hk. apply Hne. by apply append_inj_l in Hk.
  - intros p pf1 pf2 Hne Hk. apply Hne. by apply (inj (String.app p)) in Hk.
  - intros p1 p2 pf1 pf2 H1 H2 Hp1 Hp2 Hne Hk. apply Hne.
    apply loadFilter_lastChar in H1, H2.
    apply esbuildPlatform_cases in Hp1, Hp2.
    apply (f_equal lastChar) in Hk as Hlast.
    destruct Hp1 as [->|[->|[->| ->]]], Hp2 as [->|[->|[->| ->]]]; simpl in *;
      rewrite ?append_empty_r in *;
      try (apply append_inj_l in Hk; by subst);
      try (by subst);
      exfalso;
      repeat match type of Hlast with
             | context [lastChar (?p +:+ ?t)] =>
                 rewrite (lastChar_append p t _ eq_refl) in Hlast
             end;
      destruct H1 as [E1|E1], H2 as [E2|E2]; congruence.
Qed.

(** ** The claims on the concrete build *)

(** *** C1 *)

(** C1 (failing input).  The store step on [a.js] returns the transformed
    text and writes it to the on-disk cache, yet the Memory Tier has no
    entry for [a.js] on [ios] afterwards: the store is not a write-through
    to both tiers.  The promotion of an on-disk hit, a few lines above in
    the same closure, does write the Memory Tier.  And when the Memory Tier
    holds a stale entry for the file, a whole load (lookup, transform,
    store) returns the new text and leaves that stale entry in place. *)
Lemma store_skips_memory_tier :
  let run :=
    transformSource (specCache demoHash) true None None [] demoBabel demoSwc
      demoIsFlow aJs "const a = 1" (Some "H1") demoWorld in
  let promotion :=
    getTransformedSourceFromCache (specCache demoHash) true (Some "ios") tt aJs
      (snd run) in
  let reload :=
    onLoad (specCache demoHash) true (Some "ios") tt None None [] demoBabel demoSwc
      demoIsFlow aJs staleWorld in
  (fst run = Return "const a=1;" /\
   fst (readFromFileSystem (specCache demoHash) "H1" (snd run))
     = Return (Some "const a=1;") /\
   fst (readFromMemory (specCache demoHash) (memoryCacheKey "a.js" (Some "ios")) (snd run))
     = Return None) /\
  (fst promotion
     = Return {| contents := "const a=1;"; fromCache := true; hash := None |} /\
   fst (readFromMemory (specCache demoHash) (memoryCacheKey "a.js" (Some "ios"))
          (snd promotion))
     = Return (Some {| data := "const a=1;"; modifiedAt := 1 |})) /\
  (fst reload = Return {| resultContents := "const a=1;"; loader := "js" |} /\
   fst (readFromMemory (specCache demoHash) (memoryCacheKey "a.js" (Some "ios"))
          (snd reload))
     = Return (Some {| data := "old"; modifiedAt := 0 |})).
Proof. vm_compute. repeat split. Qed.

Lemma store_writes_filesystem_tier_witness :
  (cacheRootWritable demoWorld = true /\
   fst (applyTransforms None None [] demoBabel demoSwc demoIsFlow aJs
          "const a = 1" demoWorld) = Return "const a=1;") /\
  exists w',
    transformSource (specCache demoHash) true None None [] demoBabel demoSwc
      demoIsFlow aJs "const a = 1" (Some "H1") demoWorld = (Return "const a=1;", w') /\
    fst (readFromFileSystem (specCache demoHash) "H1" w') = Return (Some "const a=1;") /\
    memory w' = memory demoWorld /\
    (forall key, fst (readFromMemory (specCache demoHash) key w') =
                 fst (readFromMemory (specCache demoHash) key demoWorld)).
Proof.
  split; [split; reflexivity|].
  apply (store_writes_filesystem_tier demoHash None None [] demoBabel demoSwc
           demoIsFlow aJs "const a = 1" "H1" demoWorld "const a=1;");
    reflexivity.
Defined.

(** *** C2 *)



(** *** C3 *)

Lemma disabled_cache_fails_every_load_witness :
  exists w1,
    getTransformedSourceFromCache throwingCache false (Some "ios") tt aJs demoWorld =
      (Return {| contents := "const a = 1"; fromCache := false; hash := None |}, w1) /\
    onLoad throwingCache false (Some "ios") tt None None [] demoBabel demoSwc
      demoIsFlow aJs demoWorld =
      (Throw (JsError "hash is required for caching"), w1) /\
    transformerCalls w1 = transformerCalls demoWorld.
Proof.
  destruct (disabled_cache_fails_every_load (Some "ios") tt None None [] demoBabel
              demoSwc demoIsFlow throwingCache aJs) as (_ & Hload & _).
  apply (Hload demoWorld demoFile); reflexivity.
Defined.

(** *** C4 *)

Lemma disabled_lookup_bypasses_tiers_witness :
  (files warmDiskWorld !! path aJs = Some demoFile /\ readOk demoFile = true) /\
  exists w',
    getTransformedSourceFromCache throwingCache false (Some "ios") tt aJs warmDiskWorld =
      (Return {| contents := "const a = 1"; fromCache := false; hash := None |}, w') /\
    memory w' = memory warmDiskWorld /\
    cacheRoot w' = cacheRoot warmDiskWorld /\
    exists d, trace w' = trace warmDiskWorld ++ [EvOpen "a.js" d; EvReadFile d; EvClose d].
Proof.
  split; [split; reflexivity|].
  apply (disabled_lookup_bypasses_tiers (Some "ios") tt throwingCache aJs
           warmDiskWorld demoFile); reflexivity.
Defined.

(** *** C5 *)

Lemma stale_entry_skips_filesystem_witness :
  (files staleWorld !! path aJs = Some demoFile /\
   statOk demoFile = true /\ readOk demoFile = true /\
   memory staleWorld !! "a.jsios" = Some {| data := "old"; modifiedAt := 0 |} /\
   0 <> mtimeMs demoFile) /\
  exists w' evs,
    getTransformedSourceFromCache (specCache demoHash) true (Some "ios") tt aJs staleWorld =
      (Return {| contents := "const a = 1"; fromCache := false; hash := Some "H1" |}, w') /\
    memory w' = memory staleWorld /\
    memory w' !! "a.jsios" = Some {| data := "old"; modifiedAt := 0 |} /\
    cacheRoot w' = cacheRoot staleWorld /\
    trace w' = trace staleWorld ++ evs /\
    List.filter isTierEvent evs = [EvMemoryRead "a.jsios"].
Proof.
  split; [repeat split; done|].
  apply (stale_entry_skips_filesystem demoHash (Some "ios") tt aJs staleWorld
           demoFile {| data := "old"; modifiedAt := 0 |}); done.
Defined.

(** *** C6 *)

(** C6 (failing input).  The on-disk cache holds an entry under the hash
    of [a.js]'s current state, namely the empty text, and the Memory Tier
    is empty; the lookup nevertheless reports a miss with the raw source,
    and promotes nothing into the Memory Tier. *)
Lemma empty_cached_entry_is_missed :
  let run := getTransformedSourceFromCache (specCache demoHash) true (Some "ios") tt
               aJs emptyEntryWorld in
  cacheRoot emptyEntryWorld !! demoHash (Some "ios", tt, "a.js", 1) = Some "" /\
  memory emptyEntryWorld = ∅ /\
  fst run = Return {| contents := "const a = 1"; fromCache := false;
                      hash := Some "H1" |} /\
  memory (snd run) !! "a.jsios" = None.
Proof. vm_compute. repeat split. Qed.

(** The same lookup with the transformed text of scenario A on disk is a
    hit that is promoted, and the next lookup is a hit too. *)
Lemma promotion_example :
  let first := getTransformedSourceFromCache (specCache demoHash) true (Some "ios") tt
                 aJs warmDiskWorld in
  let second := getTransformedSourceFromCache (specCache demoHash) true (Some "ios") tt
                  aJs (snd first) in
  fst first = Return {| contents := "const a=1;"; fromCache := true; hash := None |} /\
  memory (snd first) !! "a.jsios" = Some {| data := "const a=1;"; modifiedAt := 1 |} /\
  fst second = Return {| contents := "const a=1;"; fromCache := true; hash := None |}.
Proof. vm_compute. repeat split. Qed.

(** *** C7 *)

(** Outside the pairs the lookup can be given (a path the [onLoad] filter
    rejects, a platform esbuild does not have), the boundary between the
    path and the platform is lost in the concatenation, and an absent
    platform cannot be told from an empty one. *)
Lemma memoryCacheKey_collision :
  (("main.", Some "web") <> ("main.web", None) /\
   memoryCacheKey "main." (Some "web") = memoryCacheKey "main.web" None) /\
  (("a.js", None) <> ("a.js", Some "") /\
   memoryCacheKey "a.js" None = memoryCacheKey "a.js" (Some "")).
Proof. repeat split; discriminate. Qed.

Lemma memoryCacheKey_separates_witness :
  memoryCacheKey "a.js" (Some "node") <> memoryCacheKey "b.js" (Some "node") /\
  memoryCacheKey "a.js" (Some "node") <> memoryCacheKey "a.js" None /\
  memoryCacheKey "lib/a.ts" (Some "browser") <> memoryCacheKey "lib/a.tsx" None.
Proof.
  destruct memoryCacheKey_separates as (Hpath & Hplatform & Hboth).
  split; [|split].
  - apply Hpath. discriminate.
  - apply Hplatform. discriminate.
  - apply Hboth; try reflexivity. discriminate.
Defined.

(** *** C8 *)

Lemma failed_cache_write_is_not_fatal_witness :
  (cacheRootWritable readOnlyCacheWorld = false /\
   fst (applyTransforms None None [] demoBabel demoSwc demoIsFlow aJs
          "const a = 1" readOnlyCacheWorld) = Return "const a=1;") /\
  exists w',
    transformSource (specCache demoHash) true None None [] demoBabel demoSwc
      demoIsFlow aJs "const a = 1" (Some "H1") readOnlyCacheWorld
      = (Return "const a=1;", w') /\
    cacheRoot w' = cacheRoot readOnlyCacheWorld /\
    (exists evs, trace w' = trace readOnlyCacheWorld ++ evs ++ [EvFsWriteFailed "H1"]).
Proof.
  split; [split; reflexivity|].
  destruct (failed_cache_write_is_not_fatal demoHash (Some "ios") tt None None []
              demoBabel demoSwc demoIsFlow aJs "const a = 1" "H1"
              readOnlyCacheWorld "const a=1;" eq_refl eq_refl)
    as (w' & Hrun & Hroot & Htrace & _).
  exists w'. repeat split; assumption.
Defined.

(** *** C9 *)

Lemma cache_hit_skips_transformer_witness :
  let first := getTransformedSourceFromCache (specCache demoHash) true (Some "ios") tt
                 aJs warmDiskWorld in
  fst first = Return {| contents := "const a=1;"; fromCache := true; hash := None |} /\
  onLoad (specCache demoHash) true (Some "ios") tt None None [] demoBabel demoSwc
    demoIsFlow aJs warmDiskWorld =
    (Return {| resultContents := "const a=1;"; loader := "js" |}, snd first) /\
  transformerCalls (snd first) = transformerCalls warmDiskWorld.
Proof.
  intros first. split; [vm_compute; reflexivity|].
  apply (cache_hit_skips_transformer demoHash (Some "ios") tt None None [] demoBabel
           demoSwc demoIsFlow true aJs warmDiskWorld
           {| contents := "const a=1;"; fromCache := true; hash := None |} (snd first)).
  - vm_compute. reflexivity.
  - reflexivity.
Defined.

(** *** C10 *)

(** With a cache manager that throws on its first call the lookup ends
    with that error, and the handle it opened is closed all the same. *)
Lemma lookup_always_closes_handle_witness :
  let run := getTransformedSourceFromCache throwingCache true (Some "ios") tt aJs
               demoWorld in
  fst run = Throw (JsError "cache failure") /\
  openHandles (snd run) = openHandles demoWorld /\
  handleEvents (snd run) = [EvOpen "a.js" (fresh (openHandles demoWorld));
                            EvClose (fresh (openHandles demoWorld))].
Proof.
  intros run. split; [reflexivity|].
  assert (Neutral handleState throwingCache) as Hn.
  { split; intros; intros w; reflexivity. }
  apply (lookup_always_closes_handle throwingCache true (Some "ios") tt Hn aJs demoWorld).
Defined.

(** When [readFile] rejects on the miss path the error reaches the caller
    after the handle has been closed. *)
Lemma lookup_read_error_example :
  let run := getTransformedSourceFromCache (specCache demoHash) true (Some "ios") tt
               aJs unreadableWorld in
  fst run = Throw (SystemError "EIO" "read") /\
  openHandles (snd run) = ∅ /\
  handleEvents (snd run) = [EvOpen "a.js" 0%nat; EvClose 0%nat].
Proof. vm_compute. repeat split. Qed.

(** * Further properties of the plugin *)

(** ** All outcomes of the lookup *)

Section LookupOutcomes.

Context {Config : Type}.
Variable computeHash : HashParam Config -> string.
Variable platform : option string.
Variable config : Config.

Abbreviation lookupOn cache enabled :=
  (getTransformedSourceFromCache cache enabled platform config).
Abbreviation lookup := (lookupOn (specCache computeHash) true).
Abbreviation keyOf args := (memoryCacheKey (path args) platform).
Abbreviation hashOf args mtime := (computeHash (platform, config, path args, mtime)).

(** Every way the lookup can end with caching enabled, as one case
    distinction on the state of the file and of the two tiers.  Once the
    file is open, what the [try] block produced goes through [closing]. *)
Inductive LookupOutcome (args : OnLoadArgs) (w : World)
  : Completion LookupResult -> World -> Prop :=
| OutcomeNoFile :
    files w !! path args = None ->
    LookupOutcome args w (Throw (SystemError "ENOENT" "open")) w
| OutcomeStatError f :
    files w !! path args = Some f -> statOk f = false ->
    LookupOutcome args w (closing f (Throw (rejection f "fstat")))
      (afterLookup args (fun d => [EvStat d]) (memory w) w)
| OutcomeMemoryHit f e :
    files w !! path args = Some f -> statOk f = true ->
    memory w !! keyOf args = Some e -> modifiedAt e = mtimeMs f ->
    LookupOutcome args w
      (closing f (Return {| contents := data e; fromCache := true; hash := None |}))
      (afterLookup args (fun d => [EvStat d; EvMemoryRead (keyOf args)]) (memory w) w)
| OutcomeStale f e :
    files w !! path args = Some f -> statOk f = true ->
    memory w !! keyOf args = Some e -> modifiedAt e <> mtimeMs f ->
    LookupOutcome args w
      (closing f
         (if readOk f
          then Return {| contents := text f; fromCache := false;
                         hash := Some (hashOf args (mtimeMs f)) |}
          else Throw (rejection f "read")))
      (afterLookup args
         (fun d => [EvStat d; EvMemoryRead (keyOf args); EvReadFile d])
         (memory w) w)
| OutcomeFilesystemHit f c :
    files w !! path args = Some f -> statOk f = true ->
    memory w !! keyOf args = None ->
    cacheRoot w !! hashOf args (mtimeMs f) = Some c -> c <> "" ->
    LookupOutcome args w
      (closing f (Return {| contents := c; fromCache := true; hash := None |}))
      (afterLookup args
         (fun d => [EvStat d; EvMemoryRead (keyOf args);
                    EvFsRead (hashOf args (mtimeMs f));
                    EvMemoryWrite (keyOf args) {| data := c; modifiedAt := mtimeMs f |}])
         (<[keyOf args := {| data := c; modifiedAt := mtimeMs f |}]> (memory w)) w)
| OutcomeFullMiss f :
    files w !! path args = Some f -> statOk f = true ->
    memory w !! keyOf args = None ->
    truthy (cacheRoot w !! hashOf args (mtimeMs f)) = false ->
    LookupOutcome args w
      (closing f
         (if readOk f
          then Return {| contents := text f; fromCache := false;
                         hash := Some (hashOf args (mtimeMs f)) |}
          else Throw (rejection f "read")))
      (afterLookup args
         (fun d => [EvStat d; EvMemoryRead (keyOf args);
                    EvFsRead (hashOf args (mtimeMs f)); EvReadFile d])
         (memory w) w).

Lemma lookup_outcome args w :
  LookupOutcome args w (fst (lookup args w)) (snd (lookup args w)).
Proof.
  destruct (files w !! path args) as [f|] eqn:Hf.
  2:{ rewrite (lookup_open_error platform config _ true args w Hf). by constructor. }
  destruct (statOk f) eqn:Hs.
  2:{ rewrite (lookup_stat_error platform config _ args w f Hf Hs). by econstructor. }
  destruct (memory w !! keyOf args) as [e|] eqn:He.
  - destruct (decide (modifiedAt e = mtimeMs f)) as [Hm|Hm].
    + rewrite (lookup_memory_hit computeHash platform config args w f e Hf Hs He Hm).
      by econstructor.
    + pose proof (OutcomeStale args w f e Hf Hs He Hm) as Ho.
      destruct (readOk f) eqn:Hr.
      * by rewrite (lookup_stale computeHash platform config args w f e Hf Hs Hr He Hm).
      * by rewrite (lookup_stale_read_error computeHash platform config
                      args w f e Hf Hs Hr He Hm).
  - destruct (truthy (cacheRoot w !! hashOf args (mtimeMs f))) eqn:Ht.
    + destruct (cacheRoot w !! hashOf args (mtimeMs f)) as [c|] eqn:Hc; [|done].
      assert (c <> "") as Hne by (intros ->; discriminate).
      rewrite (lookup_filesystem_hit computeHash platform config args w f c Hf Hs He Hc Hne).
      by econstructor.
    + pose proof (OutcomeFullMiss args w f Hf Hs He Ht) as Ho.
      destruct (readOk f) eqn:Hr.
      * by rewrite (lookup_full_miss computeHash platform config args w f Hf Hs Hr He Ht).
      * by rewrite (lookup_miss_read_error computeHash platform config
                      args w f Hf Hs Hr He Ht).
Qed.

(** The outcomes that return a result. *)
Lemma lookup_returns_inv args w r w' :
  lookup args w = (Return r, w') ->
  exists f,
    files w !! path args = Some f /\ statOk f = true /\ closeOk f = true /\
    ((exists e, memory w !! keyOf args = Some e /\ modifiedAt e = mtimeMs f /\
                r = {| contents := data e; fromCache := true; hash := None |})
     \/ (exists e, memory w !! keyOf args = Some e /\ modifiedAt e <> mtimeMs f /\
                   readOk f = true /\
                   r = {| contents := text f; fromCache := false;
                          hash := Some (hashOf args (mtimeMs f)) |})
     \/ (exists c, memory w !! keyOf args = None /\
                   cacheRoot w !! hashOf args (mtimeMs f) = Some c /\ c <> "" /\
                   r = {| contents := c; fromCache := true; hash := None |})
     \/ (memory w !! keyOf args = None /\
         truthy (cacheRoot w !! hashOf args (mtimeMs f)) = false /\
         readOk f = true /\
         r = {| contents := text f; fromCache := false;
                hash := Some (hashOf args (mtimeMs f)) |})).
Proof.
  intros Hl.
  pose proof (lookup_outcome args w) as Ho. rewrite Hl in Ho. simpl in Ho.
  inversion Ho as [ Hf Hres Hw | f Hf Hs Hres Hw | f e Hf Hs He Hm Hres Hw
                   | f e Hf Hs He Hm Hres Hw | f c Hf Hs He Hc Hne Hres Hw
                   | f Hf Hs He Ht Hres Hw];
    apply closing_Return_inv in Hres as [Hcl Hres];
    try discriminate Hres; exists f; (do 3 (split; [done|])).
  - left. exists e. by injection Hres as <-.
  - right; left. exists e. destruct (readOk f); [|discriminate].
    by injection Hres as <-.
  - right; right; left. exists c. by injection Hres as <-.
  - right; right; right. destruct (readOk f); [|discriminate].
    by injection Hres as <-.
Qed.

(** X1.  With caching enabled the lookup reports a hit exactly when the
    file can be opened, its [stat] succeeds, the [close] of the [finally]
    block resolves, and either the Memory Tier entry of the file records
    the current modification time, or there is no such entry and the
    on-disk cache holds a non-empty text under the hash of the current
    state.  Whether the file can be read plays no part: a hit never reads
    it. *)
Theorem lookup_hit_iff args w :
  (exists r w', getTransformedSourceFromCache (specCache computeHash) true platform config
      args w = (Return r, w') /\ fromCache r = true)
  <->
  (exists f,
      files w !! path args = Some f /\ statOk f = true /\ closeOk f = true /\
      ((exists e, memory w !! memoryCacheKey (path args) platform = Some e /\ modifiedAt e = mtimeMs f)
       \/ (memory w !! memoryCacheKey (path args) platform = None /\
           truthy (cacheRoot w !! hashOf args (mtimeMs f)) = true))).
Proof.
  split.
  - intros (r & w' & Hl & Hhit).
    destruct (lookup_returns_inv args w r w' Hl)
      as (f & Hf & Hs & Hcl & [(e & He & Hm & ->) | [(e & He & Hm & Hr & ->)
            | [(c & He & Hc & Hne & ->) | (He & Ht & Hr & ->)]]]);
      try discriminate Hhit; exists f; (do 3 (split; [done|])).
    + left. by exists e.
    + right. split; [done|].
      rewrite Hc. simpl. by destruct (String.eqb_spec c "").
  - intros (f & Hf & Hs & Hcl & [(e & He & Hm) | (He & Ht)]).
    + exists {| contents := data e; fromCache := true; hash := None |}.
      eexists. split; [|reflexivity].
      rewrite (lookup_memory_hit computeHash platform config args w f e Hf Hs He Hm).
      unfold closing. rewrite Hcl. reflexivity.
    + destruct (cacheRoot w !! hashOf args (mtimeMs f)) as [c|] eqn:Hc; [|done].
      assert (c <> "") as Hne by (intros ->; discriminate).
      exists {| contents := c; fromCache := true; hash := None |}.
      eexists. split; [|reflexivity].
      rewrite (lookup_filesystem_hit computeHash platform config args w f c
                 Hf Hs He Hc Hne).
      unfold closing. rewrite Hcl. reflexivity.
Qed.

(** X2.  With caching enabled, a lookup that returns does so in one of two
    shapes: a hit carries no hash; a miss carries the raw text of the file
    together with the hash of the file's current state, so the store that
    follows a miss always has a hash to write under. *)
Theorem lookup_result_shape args w r w' :
  getTransformedSourceFromCache (specCache computeHash) true platform config
      args w = (Return r, w') ->
  exists f,
    files w !! path args = Some f /\
    if fromCache r then hash r = None
    else hash r = Some (hashOf args (mtimeMs f)) /\ contents r = text f.
Proof.
  intros Hl.
  destruct (lookup_returns_inv args w r w' Hl)
    as (f & Hf & Hs & Hcl & [(e & He & Hm & ->) | [(e & He & Hm & Hr & ->)
          | [(c & He & Hc & Hne & ->) | (He & Ht & Hr & ->)]]]);
    exists f; split; done.
Qed.

(** X3.  However the lookup ends, it leaves the source files, the on-disk
    cache and the set of open handles as they were, and in the Memory Tier
    it can only have touched the entry of the file it was asked for: the
    entries of all other keys are unchanged. *)
Theorem lookup_touches_own_entry_only args w :
  let w' := snd (getTransformedSourceFromCache (specCache computeHash) true platform config
      args w) in
  files w' = files w /\
  cacheRoot w' = cacheRoot w /\
  cacheRootWritable w' = cacheRootWritable w /\
  openHandles w' = openHandles w /\
  (forall key, key <> memoryCacheKey (path args) platform -> memory w' !! key = memory w !! key).
Proof.
  simpl. pose proof (lookup_outcome args w) as Ho.
  destruct (lookup args w) as [res w']. simpl in *.
  inversion Ho; subst; simpl; repeat split; try done;
    try apply close_after_open.
  intros key Hne. by rewrite lookup_insert_ne.
Qed.

(** The outcomes that throw. *)
Lemma lookup_throws_inv args w e w' :
  lookup args w = (Throw e, w') ->
  (files w !! path args = None /\ e = SystemError "ENOENT" "open" /\ w' = w)
  \/
  (exists f,
      files w !! path args = Some f /\
      ((closeOk f = false /\ e = rejection f "close" /\
        (memory w' = memory w
         \/ exists c, statOk f = true /\ memory w !! keyOf args = None /\
              cacheRoot w !! hashOf args (mtimeMs f) = Some c /\ c <> "" /\
              memory w' = <[keyOf args := {| data := c; modifiedAt := mtimeMs f |}]>
                            (memory w)))
       \/ (closeOk f = true /\ statOk f = false /\ e = rejection f "fstat" /\
           memory w' = memory w)
       \/ (closeOk f = true /\ statOk f = true /\ readOk f = false /\
           e = rejection f "read" /\ memory w' = memory w))).
Proof.
  intros Hl.
  pose proof (lookup_outcome args w) as Ho. rewrite Hl in Ho. simpl in Ho.
  inversion Ho as [ Hf Hres Hw | f Hf Hs Hres Hw | f e0 Hf Hs He Hm Hres Hw
                   | f e0 Hf Hs He Hm Hres Hw | f c Hf Hs He Hc Hne Hres Hw
                   | f Hf Hs He Ht Hres Hw]; subst.
  - left. done.
  - right. exists f. split; [done|]. unfold closing in Hres.
    destruct (closeOk f); injection Hres as <-.
    + right; left. done.
    + left. split; [done|]. split; [done|]. by left.
  - right. exists f. split; [done|]. unfold closing in Hres.
    destruct (closeOk f); [discriminate|]. injection Hres as <-.
    left. split; [done|]. split; [done|]. by left.
  - right. exists f. split; [done|]. unfold closing in Hres.
    destruct (closeOk f).
    + destruct (readOk f); [discriminate|]. injection Hres as <-.
      right; right. done.
    + injection Hres as <-. left. split; [done|]. split; [done|]. by left.
  - right. exists f. split; [done|]. unfold closing in Hres.
    destruct (closeOk f); [discriminate|]. injection Hres as <-.
    left. split; [done|]. split; [done|]. right. by exists c.
  - right. exists f. split; [done|]. unfold closing in Hres.
    destruct (closeOk f).
    + destruct (readOk f); [discriminate|]. injection Hres as <-.
      right; right. done.
    + injection Hres as <-. left. split; [done|]. split; [done|]. by left.
Qed.

End LookupOutcomes.

(** ** Errors of the source file *)

Section SourceErrors.

Context {Config : Type}.
Variable computeHash : HashParam Config -> string.
Variable platform : option string.
Variable config : Config.
Variable stripFlowPackageNamesRegExp : option (string -> bool).
Variable fullyTransformPackagesRegExp : option (string -> bool).
Variable customTransformRules : list CustomTransformRule.
Variable transformWithBabel : string -> OnLoadArgs -> BabelOptions -> Completion string.
Variable transformWithSwc : string -> OnLoadArgs -> Completion string.
Variable isFlow : string -> string -> bool.

(** X4.  With caching enabled and a cache manager whose methods do not
    throw (the one of the spec), whenever the lookup throws, one of the
    four operations on the source file rejected and the lookup throws the
    error of that operation, whatever that error is: [fs.open] (nothing
    else ran, the world is as it was), or, on the opened file, [stat],
    [readFile] or the [close] of the [finally] block, whose error takes
    the place of whatever the [try] block produced.  When [close]
    resolved, nothing has been promoted: the Memory Tier is what it was.
    When [close] rejected, the Memory Tier is what it was or holds the
    entry just promoted from the on-disk cache, although the caller never
    received its content; and with such an on-disk entry and no Memory
    Tier entry, a rejecting [close] does throw after the promotion. *)
Theorem lookup_throws_only_file_errors args w :
  (forall e w',
      getTransformedSourceFromCache (specCache computeHash) true platform config args w
        = (Throw e, w') ->
      (files w !! path args = None /\ fsOpen (path args) w = (Throw e, w') /\ w' = w)
      \/
      (exists f,
          files w !! path args = Some f /\
          ((closeOk f = false /\ e = rejection f "close" /\
            (memory w' = memory w
             \/ exists c,
                  cacheRoot w !! computeHash (platform, config, path args, mtimeMs f)
                    = Some c /\
                  memory w' = <[memoryCacheKey (path args) platform :=
                                  {| data := c; modifiedAt := mtimeMs f |}]> (memory w)))
           \/ (closeOk f = true /\ statOk f = false /\ e = rejection f "fstat" /\
               memory w' = memory w)
           \/ (closeOk f = true /\ statOk f = true /\ readOk f = false /\
               e = rejection f "read" /\ memory w' = memory w))))
  /\
  (forall f c,
      files w !! path args = Some f ->
      statOk f = true ->
      closeOk f = false ->
      memory w !! memoryCacheKey (path args) platform = None ->
      cacheRoot w !! computeHash (platform, config, path args, mtimeMs f) = Some c ->
      c <> "" ->
      exists w',
        getTransformedSourceFromCache (specCache computeHash) true platform config args w
          = (Throw (rejection f "close"), w') /\
        memory w' !! memoryCacheKey (path args) platform
          = Some {| data := c; modifiedAt := mtimeMs f |}).
Proof.
  split.
  - intros e w' Hl.
    destruct (lookup_throws_inv computeHash platform config args w e w' Hl)
      as [(Hf & -> & ->) | (f & Hf & Hcase)].
    + left. split; [done|]. split; [|done]. unfold fsOpen. by rewrite Hf.
    + right. exists f. split; [done|].
      destruct Hcase as [(Hcl & He & Hmem) | [? | ?]]; [left | by right; left | by right; right].
      split; [done|]. split; [done|].
      destruct Hmem as [Hmem | (c & _ & _ & Hc & _ & Hmem)]; [by left|].
      right. by exists c.
  - intros f c Hf Hs Hcl He Hc Hne. eexists. split.
    + rewrite (lookup_filesystem_hit computeHash platform config args w f c
                 Hf Hs He Hc Hne).
      unfold closing. rewrite Hcl. reflexivity.
    + simpl. apply lookup_insert_eq.
Qed.

(** X5.  Whatever the cache manager and whether caching is on or off: a
    load of a path that cannot be opened throws ENOENT and leaves the world
    exactly as it was; and with caching on, when [stat] on the opened file
    rejects, the load throws that error ([closing]: or the error of
    [close], when [close] rejects too) after closing the handle, without
    having called any method of the cache manager or any transformer. *)
Theorem unopenable_or_unstatable_file_fails_load (cache : CacheManager Config) args w :
  (forall enabled,
      files w !! path args = None ->
      onLoad cache enabled platform config stripFlowPackageNamesRegExp
        fullyTransformPackagesRegExp customTransformRules transformWithBabel
        transformWithSwc isFlow args w
        = (Throw (SystemError "ENOENT" "open"), w))
  /\
  (forall f,
      files w !! path args = Some f ->
      statOk f = false ->
      exists w' d,
        onLoad cache true platform config stripFlowPackageNamesRegExp
          fullyTransformPackagesRegExp customTransformRules transformWithBabel
          transformWithSwc isFlow args w
          = (closing f (Throw (rejection f "fstat")), w') /\
        trace w' = trace w ++ [EvOpen (path args) d; EvStat d; EvClose d] /\
        storage w' = storage w).
Proof.
  split.
  - intros enabled Hf. unfold onLoad, bind.
    by rewrite (lookup_open_error platform config cache enabled args w Hf).
  - intros f Hf Hs. eexists _, _. split; [|split].
    + unfold onLoad, bind.
      rewrite (lookup_stat_error platform config cache args w f Hf Hs).
      unfold closing. destruct (closeOk f); reflexivity.
    + reflexivity.
    + unfold storage. simpl. by rewrite close_after_open.
Qed.

End SourceErrors.

(** ** The transformer pipeline *)

Lemma bind_Return_inv {A B} (m : M A) (k : A -> M B) w b w' :
  bind m k w = (Return b, w') ->
  exists a w1, m w = (Return a, w1) /\ k a w1 = (Return b, w').
Proof.
  unfold bind. destruct (m w) as [[a|e] w1]; [|discriminate].
  intros H. by exists a, w1.
Qed.

Lemma bind_assoc {A B C} (m : M A) (k : A -> M B) (k' : B -> M C) w :
  bind (bind m k) k' w = bind m (fun a => bind (k a) k') w.
Proof. unfold bind. destruct (m w) as [[a|e] w1]; reflexivity. Qed.

Lemma bind_ext {A B} (m : M A) (k1 k2 : A -> M B) w :
  (forall a w1, k1 a w1 = k2 a w1) -> bind m k1 w = bind m k2 w.
Proof. intros H. unfold bind. destruct (m w) as [[a|e] w1]; [apply H | reflexivity]. Qed.

Lemma resultOnly_ret {A} (a : A) : resultOnly (ret a).
Proof. intros w w0. reflexivity. Qed.

Lemma resultOnly_bind {A B} (m : M A) (k : A -> M B) :
  resultOnly m -> (forall a, resultOnly (k a)) -> resultOnly (bind m k).
Proof.
  intros Hm Hk w w0. unfold bind. specialize (Hm w w0).
  destruct (m w) as [[a|e] w1], (m w0) as [[a0|e0] w2]; simpl in *;
    try discriminate.
  - injection Hm as <-. apply Hk.
  - by injection Hm as <-.
Qed.

Lemma resultOnly_if {A} (b : bool) (m1 m2 : M A) :
  resultOnly m1 -> resultOnly m2 -> resultOnly (if b then m1 else m2).
Proof. destruct b; auto. Qed.

Lemma silent_ret {A} P (a : A) : silent P (ret a).
Proof. intros w. exists []. by rewrite app_nil_r. Qed.

Lemma silent_bind {A B} P (m : M A) (k : A -> M B) :
  silent P m -> (forall a, silent P (k a)) -> silent P (bind m k).
Proof.
  intros Hm Hk w. unfold bind. destruct (Hm w) as (evs1 & Ht1 & Hp1).
  destruct (m w) as [[a|e] w1]; simpl in *.
  - destruct (Hk a w1) as (evs2 & Ht2 & Hp2). exists (evs1 ++ evs2).
    rewrite Ht2, Ht1, <- app_assoc, List.filter_app, Hp1, Hp2. done.
  - by exists evs1.
Qed.

Lemma silent_if {A} P (b : bool) (m1 m2 : M A) :
  silent P m1 -> silent P m2 -> silent P (if b then m1 else m2).
Proof. destruct b; auto. Qed.

Lemma transformerCalls_afterLookup args steps mem w :
  (forall d, List.filter isTransformerEvent (steps d) = []) ->
  transformerCalls (afterLookup args steps mem w) = transformerCalls w.
Proof.
  intros Hsteps. unfold transformerCalls, afterLookup. simpl.
  rewrite List.filter_app. simpl. rewrite List.filter_app, Hsteps. simpl.
  by rewrite app_nil_r.
Qed.

Section Pipeline.

Context {Config : Type}.
Variable computeHash : HashParam Config -> string.
Variable platform : option string.
Variable config : Config.
Variable stripFlowPackageNamesRegExp : option (string -> bool).
Variable fullyTransformPackagesRegExp : option (string -> bool).
Variable customTransformRules : list CustomTransformRule.
Variable transformWithBabel : string -> OnLoadArgs -> BabelOptions -> Completion string.
Variable transformWithSwc : string -> OnLoadArgs -> Completion string.
Variable isFlow : string -> string -> bool.

Abbreviation transforms :=
  (applyTransforms stripFlowPackageNamesRegExp fullyTransformPackagesRegExp
     customTransformRules transformWithBabel transformWithSwc isFlow).
Abbreviation theCache := (specCache computeHash).
Abbreviation store :=
  (transformSource theCache true stripFlowPackageNamesRegExp
     fullyTransformPackagesRegExp customTransformRules transformWithBabel
     transformWithSwc isFlow).
Abbreviation load :=
  (onLoad theCache true platform config stripFlowPackageNamesRegExp
     fullyTransformPackagesRegExp customTransformRules transformWithBabel
     transformWithSwc isFlow).
Abbreviation lookup :=
  (getTransformedSourceFromCache theCache true platform config).
Abbreviation keyOf args := (memoryCacheKey (path args) platform).
Abbreviation hashOf args mtime := (computeHash (platform, config, path args, mtime)).
Abbreviation flowOptions :=
  {| babelrc := false;
     plugins := Some ["@babel/plugin-syntax-flow";
                      "@babel/plugin-transform-flow-strip-types"] |}.

Lemma appends_babel s args o : appends (babel transformWithBabel s args o).
Proof. intros w. by eexists. Qed.

Lemma appends_applyCustomRules rules args s :
  appends (applyCustomRules transformWithBabel rules args s).
Proof.
  revert s. induction rules as [|rule rest IH]; intros s; simpl.
  - apply appends_ret.
  - apply appends_bind; [|intros s'; apply IH].
    apply appends_if; [apply appends_babel | apply appends_ret].
Qed.

Lemma resultOnly_applyCustomRules rules args s :
  resultOnly (applyCustomRules transformWithBabel rules args s).
Proof.
  revert s. induction rules as [|rule rest IH]; intros s; simpl.
  - apply resultOnly_ret.
  - apply resultOnly_bind; [|intros s'; apply IH].
    apply resultOnly_if; [|apply resultOnly_ret]. intros w w0. reflexivity.
Qed.

Lemma silent_babel s args o :
  silent isTierEvent (babel transformWithBabel s args o).
Proof. intros w. by exists [EvBabel s (path args) o]. Qed.

Lemma silent_applyCustomRules rules args s :
  silent isTierEvent (applyCustomRules transformWithBabel rules args s).
Proof.
  revert s. induction rules as [|rule rest IH]; intros s; simpl.
  - apply silent_ret.
  - apply silent_bind; [|intros s'; apply IH].
    apply silent_if; [apply silent_babel | apply silent_ret].
Qed.

(** The transformers issue no operation of either tier. *)
Lemma silent_applyTransforms args raw : silent isTierEvent (transforms args raw).
Proof.
  unfold applyTransforms.
  apply silent_bind.
  { apply silent_if; [|apply silent_ret].
    apply silent_bind; [apply silent_babel|]. intros s. apply silent_ret. }
  intros st. apply silent_bind.
  { apply silent_if; [apply silent_babel | apply silent_ret]. }
  intros s. apply silent_bind; [apply silent_applyCustomRules|].
  intros s' w. by exists [EvSwc s' (path args)].
Qed.

(** What the transformers return depends on the source and the path
    only, not on the state of the caches. *)
Lemma resultOnly_applyTransforms args raw : resultOnly (transforms args raw).
Proof.
  unfold applyTransforms.
  apply resultOnly_bind.
  { apply resultOnly_if; [|apply resultOnly_ret].
    apply resultOnly_bind; [|intros s; apply resultOnly_ret].
    intros w w0. reflexivity. }
  intros st. apply resultOnly_bind.
  { apply resultOnly_if; [|apply resultOnly_ret]. intros w w0. reflexivity. }
  intros s. apply resultOnly_bind; [apply resultOnly_applyCustomRules|].
  intros s' w w0. reflexivity.
Qed.

Lemma applyTransforms_first_pass args raw w :
  applyTransforms stripFlowPackageNamesRegExp fullyTransformPackagesRegExp
    customTransformRules transformWithBabel transformWithSwc isFlow args raw w
  = (let! s :=
       (if regExpTest fullyTransformPackagesRegExp (path args)
        then babel transformWithBabel raw args {| babelrc := true; plugins := None |}
        else if isFlow raw (path args)
                || regExpTest stripFlowPackageNamesRegExp (path args)
        then babel transformWithBabel raw args flowOptions
        else ret raw) in
     let! s' := applyCustomRules transformWithBabel customTransformRules args s in
     swc transformWithSwc s' args) w.
Proof.
  unfold applyTransforms, bind, babel.
  destruct (regExpTest fullyTransformPackagesRegExp (path args)); simpl.
  - destruct (transformWithBabel raw args {| babelrc := true; plugins := None |});
      reflexivity.
  - destruct (isFlow raw (path args)
              || regExpTest stripFlowPackageNamesRegExp (path args)); reflexivity.
Qed.

(** X6.  The first Babel pass is one of three things, decided on the raw
    source: the full pass ([babelrc: true]) when the path is in a
    fully-transformed package; otherwise the Flow-stripping pass when
    [isFlow] accepts the raw source or the path is in a strip-Flow
    package; otherwise nothing.  The two passes never both run, and a
    fully transformed source is not tested for Flow.  The custom rules
    and then swc follow. *)
Theorem applyTransforms_stages args raw w :
  applyTransforms stripFlowPackageNamesRegExp fullyTransformPackagesRegExp
    customTransformRules transformWithBabel transformWithSwc isFlow args raw w
  = (let! s :=
       (if regExpTest fullyTransformPackagesRegExp (path args)
        then babel transformWithBabel raw args {| babelrc := true; plugins := None |}
        else if isFlow raw (path args)
                || regExpTest stripFlowPackageNamesRegExp (path args)
        then babel transformWithBabel raw args flowOptions
        else ret raw) in
     let! s' := applyCustomRules transformWithBabel customTransformRules args s in
     swc transformWithSwc s' args) w.
Proof. exact (applyTransforms_first_pass args raw w). Qed.

(** X7.  The custom rules run in list order, each one tested against and
    applied to the output of the rules before it: (1) running a list of
    rules is running a first part of it and then the rest on the result.
    (2) When no rule accepts the source, the source comes back unchanged
    and Babel is not called.  (3) A rule whose [test] accepts the path and
    the current source is applied through Babel with [babelrc: false] and
    the rule's own plugins: that one call is recorded, the rules after it
    run on what Babel returned, and when Babel throws the loop ends with
    that error without trying the rules after it.  (4) A rule whose [test]
    rejects is skipped: the rules after it run on the same source in the
    same world. *)
Theorem applyCustomRules_in_order args :
  (forall rules1 rules2 source w,
      applyCustomRules transformWithBabel (rules1 ++ rules2) args source w
      = (let! s := applyCustomRules transformWithBabel rules1 args source in
         applyCustomRules transformWithBabel rules2 args s) w)
  /\
  (forall rules source w,
      Forall (fun rule => test rule (path args) source = false) rules ->
      applyCustomRules transformWithBabel rules args source w = (Return source, w))
  /\
  (forall rule rest source w,
      test rule (path args) source = true ->
      let options := {| babelrc := false; plugins := Some (rulePlugins rule) |} in
      let called := log (EvBabel source (path args) options) w in
      applyCustomRules transformWithBabel (rule :: rest) args source w
      = match transformWithBabel source args options with
        | Return source' => applyCustomRules transformWithBabel rest args source' called
        | Throw e => (Throw e, called)
        end)
  /\
  (forall rule rest source w,
      test rule (path args) source = false ->
      applyCustomRules transformWithBabel (rule :: rest) args source w
      = applyCustomRules transformWithBabel rest args source w).
Proof.
  split; [|split; [|split]].
  - induction rules1 as [|rule rest IH]; intros rules2 source w.
    + reflexivity.
    + simpl. rewrite bind_assoc. apply bind_ext. intros s w1. apply IH.
  - induction rules as [|rule rest IH]; intros source w Hall.
    + reflexivity.
    + inversion Hall as [|? ? Hrule Hrest]; subst. simpl. unfold bind.
      rewrite Hrule. simpl. by apply IH.
  - intros rule rest source w Hrule. simpl. unfold bind, babel. rewrite Hrule.
    reflexivity.
  - intros rule rest source w Hrule. simpl. unfold bind. rewrite Hrule.
    reflexivity.
Qed.

Lemma applyTransforms_swc_last args raw w txt :
  fst (applyTransforms stripFlowPackageNamesRegExp fullyTransformPackagesRegExp
         customTransformRules transformWithBabel transformWithSwc isFlow args raw w)
    = Return txt ->
  exists s evs,
    transformWithSwc s args = Return txt /\
    trace (snd (applyTransforms stripFlowPackageNamesRegExp
                  fullyTransformPackagesRegExp customTransformRules
                  transformWithBabel transformWithSwc isFlow args raw w))
      = trace w ++ evs ++ [EvSwc s (path args)].
Proof.
  rewrite applyTransforms_first_pass.
  set (first :=
         if regExpTest fullyTransformPackagesRegExp (path args)
         then babel transformWithBabel raw args {| babelrc := true; plugins := None |}
         else if isFlow raw (path args)
                 || regExpTest stripFlowPackageNamesRegExp (path args)
         then babel transformWithBabel raw args flowOptions
         else ret raw).
  assert (appends first) as Hfirst.
  { subst first. repeat apply appends_if; auto using appends_babel, appends_ret. }
  intros Hres.
  destruct (bind first _ w) as [res w'] eqn:Hrun. simpl in Hres. subst res.
  apply bind_Return_inv in Hrun as (s1 & w1 & H1 & Hrun).
  apply bind_Return_inv in Hrun as (s2 & w2 & H2 & Hrun).
  unfold swc in Hrun. injection Hrun as Hswc <-.
  destruct (Hfirst w) as [evs1 Ht1]. rewrite H1 in Ht1. simpl in Ht1.
  destruct (appends_applyCustomRules customTransformRules args s1 w1) as [evs2 Ht2].
  rewrite H2 in Ht2. simpl in Ht2.
  exists s2, (evs1 ++ evs2). split; [exact Hswc|].
  simpl. rewrite Ht2, Ht1. by rewrite <- !app_assoc.
Qed.

(** X8.  Whatever the transformers return is an output of swc: when the
    pipeline returns [txt], swc was its last call and returned [txt]. *)
Theorem applyTransforms_ends_with_swc args raw w txt :
  fst (applyTransforms stripFlowPackageNamesRegExp fullyTransformPackagesRegExp
         customTransformRules transformWithBabel transformWithSwc isFlow args raw w)
    = Return txt ->
  exists s evs,
    transformWithSwc s args = Return txt /\
    trace (snd (applyTransforms stripFlowPackageNamesRegExp
                  fullyTransformPackagesRegExp customTransformRules
                  transformWithBabel transformWithSwc isFlow args raw w))
      = trace w ++ evs ++ [EvSwc s (path args)].
Proof. exact (applyTransforms_swc_last args raw w txt). Qed.

(** ** The store and repeated loads *)

Lemma onLoad_unfold args w :
  load args w =
    match lookup args w with
    | (Return r, w1) =>
        if fromCache r
        then (Return {| resultContents := contents r; loader := "js" |}, w1)
        else
          match store args (contents r) (hash r) w1 with
          | (Return c, w2) => (Return {| resultContents := c; loader := "js" |}, w2)
          | (Throw e, w2) => (Throw e, w2)
          end
    | (Throw e, w1) => (Throw e, w1)
    end.
Proof.
  unfold onLoad, bind. destruct (lookup args w) as [[r|e] w1]; [|reflexivity].
  destruct (fromCache r); reflexivity.
Qed.

(** The store on a world where the transformers succeed. *)
Lemma store_success args raw h w txt :
  fst (transforms args raw w) = Return txt ->
  exists wT s evs,
    storage wT = storage w /\
    trace wT = trace w ++ evs ++ [EvSwc s (path args)] /\
    List.filter isTierEvent evs = [] /\
    store args raw (Some h) w =
      (Return txt,
       if cacheRootWritable w
       then log (EvFsWrite h txt) (setCacheRoot (<[h := txt]> (cacheRoot w)) wT)
       else log (EvFsWriteFailed h) wT).
Proof.
  intros Ht.
  destruct (applyTransforms_swc_last args raw w txt Ht) as (s & evs & _ & Htr).
  assert (List.filter isTierEvent evs = []) as Hsil.
  { destruct (silent_applyTransforms args raw w) as (evsT & HtrT & HsilT).
    rewrite Htr in HtrT. apply app_inv_head in HtrT. subst evsT.
    rewrite List.filter_app in HsilT. by apply app_eq_nil in HsilT as [? _]. }
  pose proof (keeps_applyTransforms_storage stripFlowPackageNamesRegExp
                fullyTransformPackagesRegExp customTransformRules transformWithBabel
                transformWithSwc isFlow args raw w) as Hk.
  pose proof (transformSource_enabled computeHash stripFlowPackageNamesRegExp
                fullyTransformPackagesRegExp customTransformRules transformWithBabel
                transformWithSwc isFlow args raw h w) as Hs.
  destruct (transforms args raw w) as [res wT]. simpl in *. subst res.
  exists wT, s, evs. split; [exact Hk|]. split; [exact Htr|].
  split; [exact Hsil|].
  rewrite Hs. unfold storage in Hk. injection Hk as _ _ _ Hroot Hwr.
  by rewrite Hwr, Hroot.
Qed.

Lemma store_keeps_writable args raw h w :
  cacheRootWritable (snd (store args raw (Some h) w)) = cacheRootWritable w.
Proof.
  rewrite (transformSource_enabled computeHash stripFlowPackageNamesRegExp
             fullyTransformPackagesRegExp customTransformRules transformWithBabel
             transformWithSwc isFlow args raw h w).
  pose proof (keeps_applyTransforms_storage stripFlowPackageNamesRegExp
                fullyTransformPackagesRegExp customTransformRules transformWithBabel
                transformWithSwc isFlow args raw w) as Hk.
  destruct (transforms args raw w) as [[txt|e] wT]; simpl in *;
    unfold storage in Hk; injection Hk as _ _ _ _ Hwr; [|done].
  rewrite <- Hwr. destruct (cacheRootWritable wT) eqn:E; simpl; congruence.
Qed.

Lemma store_frame args raw h w :
  let run := transformSource (specCache computeHash) true
               stripFlowPackageNamesRegExp fullyTransformPackagesRegExp
               customTransformRules transformWithBabel transformWithSwc isFlow
               args raw (Some h) w in
  files (snd run) = files w /\
  openHandles (snd run) = openHandles w /\
  memory (snd run) = memory w /\
  (forall h', h' <> h -> cacheRoot (snd run) !! h' = cacheRoot w !! h') /\
  (forall e, fst run = Throw e ->
             fst (transforms args raw w) = Throw e /\
             cacheRoot (snd run) = cacheRoot w).
Proof.
  cbv zeta.
  rewrite (transformSource_enabled computeHash stripFlowPackageNamesRegExp
             fullyTransformPackagesRegExp customTransformRules transformWithBabel
             transformWithSwc isFlow args raw h w).
  pose proof (keeps_applyTransforms_storage stripFlowPackageNamesRegExp
                fullyTransformPackagesRegExp customTransformRules transformWithBabel
                transformWithSwc isFlow args raw w) as Hk.
  destruct (transforms args raw w) as [[txt|e] wT]; simpl in *;
    unfold storage in Hk; injection Hk as Hfiles Hopen Hmem Hroot Hwr.
  - split; [|split; [|split; [|split]]].
    + by destruct (cacheRootWritable wT).
    + by destruct (cacheRootWritable wT).
    + by destruct (cacheRootWritable wT).
    + intros h' Hne. destruct (cacheRootWritable wT); simpl.
      * by rewrite lookup_insert_ne, Hroot.
      * by rewrite Hroot.
    + intros e He. discriminate He.
  - split; [|split; [|split; [|split]]]; try done.
    intros h' _. by rewrite Hroot.
Qed.

(** X9.  However the store ends, it leaves the source files, the open
    handles and the Memory Tier as they were, and on disk it can only have
    changed the entry under the hash it was given.  When it throws, the
    error is the transformers' and the on-disk cache is untouched: a failed
    transform never leaves a cache entry behind. *)
Theorem store_touches_own_hash_only args raw h w :
  let run := transformSource (specCache computeHash) true
               stripFlowPackageNamesRegExp fullyTransformPackagesRegExp
               customTransformRules transformWithBabel transformWithSwc isFlow
               args raw (Some h) w in
  files (snd run) = files w /\
  openHandles (snd run) = openHandles w /\
  memory (snd run) = memory w /\
  (forall h', h' <> h -> cacheRoot (snd run) !! h' = cacheRoot w !! h') /\
  (forall e, fst run = Throw e ->
             fst (transforms args raw w) = Throw e /\
             cacheRoot (snd run) = cacheRoot w).
Proof. exact (store_frame args raw h w). Qed.

(** X10.  Warming up takes two loads.  Start with a readable file (its
    handle closes without error) that neither tier knows, a writable cache
    root, and transformers that turn its text into a non-empty [txt].  The first load runs the transformers
    and returns [txt] (the store writes the on-disk cache only).  The
    second load is answered from the on-disk cache without a transformer
    call and promotes the entry.  The third load is answered from the
    Memory Tier alone. *)
Theorem miss_then_disk_hit_then_memory_hit args w f txt :
  files w !! path args = Some f ->
  statOk f = true ->
  readOk f = true ->
  closeOk f = true ->
  memory w !! keyOf args = None ->
  truthy (cacheRoot w !! hashOf args (mtimeMs f)) = false ->
  cacheRootWritable w = true ->
  fst (transforms args (text f) w) = Return txt ->
  txt <> "" ->
  exists w1 w2 w3 evs,
    onLoad (specCache computeHash) true platform config stripFlowPackageNamesRegExp
      fullyTransformPackagesRegExp customTransformRules transformWithBabel
      transformWithSwc isFlow args w
      = (Return {| resultContents := txt; loader := "js" |}, w1) /\
    memory w1 !! keyOf args = None /\
    load args w1 = (Return {| resultContents := txt; loader := "js" |}, w2) /\
    transformerCalls w2 = transformerCalls w1 /\
    memory w2 !! keyOf args = Some {| data := txt; modifiedAt := mtimeMs f |} /\
    load args w2 = (Return {| resultContents := txt; loader := "js" |}, w3) /\
    trace w3 = trace w2 ++ evs /\
    List.filter (fun ev => isTierEvent ev || isTransformerEvent ev) evs
      = [EvMemoryRead (keyOf args)].
Proof.
  intros Hf Hs Hr Hcl He Hc Hw Ht Hne.
  pose proof (lookup_full_miss computeHash platform config args w f Hf Hs Hr He Hc)
    as Hl1.
  unfold closing in Hl1. rewrite Hcl in Hl1.
  set (wA := afterLookup args
               (fun d => [EvStat d; EvMemoryRead (keyOf args);
                          EvFsRead (hashOf args (mtimeMs f)); EvReadFile d])
               (memory w) w) in Hl1.
  assert (fst (transforms args (text f) wA) = Return txt) as HtA.
  { by rewrite (resultOnly_applyTransforms args (text f) wA w). }
  destruct (store_success args (text f) (hashOf args (mtimeMs f)) wA txt HtA)
    as (wT & s & evs & Hst & _ & _ & Hstore).
  assert (cacheRootWritable wA = true) as HwA by exact Hw.
  rewrite HwA in Hstore.
  set (w1 := log (EvFsWrite (hashOf args (mtimeMs f)) txt)
               (setCacheRoot (<[hashOf args (mtimeMs f) := txt]> (cacheRoot wA)) wT))
    in Hstore.
  unfold storage in Hst. injection Hst as Hfiles Hopen Hmem Hroot Hwr.
  assert (files w1 !! path args = Some f) as Hf1.
  { subst w1. simpl. by rewrite Hfiles. }
  assert (memory w1 !! keyOf args = None) as He1.
  { subst w1. simpl. by rewrite Hmem. }
  assert (cacheRoot w1 !! hashOf args (mtimeMs f) = Some txt) as Hc1.
  { subst w1. simpl. apply lookup_insert_eq. }
  pose proof (lookup_filesystem_hit computeHash platform config args w1 f txt
                Hf1 Hs He1 Hc1 Hne) as Hl2.
  simpl in Hl2. unfold closing in Hl2. rewrite Hcl in Hl2.
  set (entry := {| data := txt; modifiedAt := mtimeMs f |}) in *.
  set (w2 := afterLookup args
               (fun d => [EvStat d; EvMemoryRead (keyOf args);
                          EvFsRead (hashOf args (mtimeMs f));
                          EvMemoryWrite (keyOf args) entry])
               (<[keyOf args := entry]> (memory w1)) w1) in Hl2.
  assert (memory w2 !! keyOf args = Some entry) as He2 by apply lookup_insert_eq.
  pose proof (lookup_memory_hit computeHash platform config args w2 f entry
                Hf1 Hs He2 eq_refl) as Hl3.
  unfold closing in Hl3. rewrite Hcl in Hl3.
  eexists w1, w2, _, _.
  split; [|split; [exact He1|split; [|split; [|split; [exact He2|split; [|split]]]]]].
  - change (load args w = (Return {| resultContents := txt; loader := "js" |}, w1)).
    rewrite onLoad_unfold, Hl1. cbn [fromCache contents hash]. by rewrite Hstore.
  - rewrite onLoad_unfold, Hl2. reflexivity.
  - by apply transformerCalls_afterLookup.
  - rewrite onLoad_unfold, Hl3. reflexivity.
  - reflexivity.
  - reflexivity.
Qed.

(** X11.  A stale Memory Tier entry is never refreshed.  When the entry of
    a readable file (its handle closes without error) records another
    modification time than the current one and the transformers succeed,
    every further load of the unchanged file returns the transformed text
    by running the transformers again (swc is called each time), and the
    stale entry is still in place afterwards.  The entry the store writes
    on disk is never read back: with a writable cache root it is on disk
    after the load, under the hash of the file's current state, yet the
    only tier operations of each of these loads are the read of the Memory
    Tier and the write to the on-disk cache; the on-disk cache is not
    read. *)
Theorem stale_entry_retransforms_on_every_load args w f e txt (n : nat) :
  files w !! path args = Some f ->
  statOk f = true ->
  readOk f = true ->
  closeOk f = true ->
  memory w !! keyOf args = Some e ->
  modifiedAt e <> mtimeMs f ->
  fst (transforms args (text f) w) = Return txt ->
  let before :=
    loads (specCache computeHash) true platform config stripFlowPackageNamesRegExp
      fullyTransformPackagesRegExp customTransformRules transformWithBabel
      transformWithSwc isFlow n args w in
  let after :=
    loads (specCache computeHash) true platform config stripFlowPackageNamesRegExp
      fullyTransformPackagesRegExp customTransformRules transformWithBabel
      transformWithSwc isFlow (S n) args w in
  load args before = (Return {| resultContents := txt; loader := "js" |}, after) /\
  memory after !! keyOf args = Some e /\
  (exists s evs,
      transformerCalls after = transformerCalls before ++ evs ++ [EvSwc s (path args)]) /\
  (cacheRootWritable w = true ->
   cacheRoot after !! hashOf args (mtimeMs f) = Some txt) /\
  (exists evs,
      trace after = trace before ++ evs /\
      List.filter isTierEvent evs =
        [EvMemoryRead (keyOf args);
         if cacheRootWritable w
         then EvFsWrite (hashOf args (mtimeMs f)) txt
         else EvFsWriteFailed (hashOf args (mtimeMs f))]).
Proof.
  intros Hf Hs Hr Hcl He Hm Ht. simpl.
  set (before := loads _ _ _ _ _ _ _ _ _ _ n args w).
  assert (files before = files w /\ memory before = memory w /\
          cacheRootWritable before = cacheRootWritable w) as (Hfb & Hmb & Hwb).
  { subst before. induction n as [|n IH]; [done|]. destruct IH as (IHf & IHm & IHw).
    simpl. set (prev := loads _ _ _ _ _ _ _ _ _ _ n args w) in *.
    fold (load args prev). rewrite onLoad_unfold.
    assert (files prev !! path args = Some f) as Hfp by by rewrite IHf.
    assert (memory prev !! keyOf args = Some e) as Hep by by rewrite IHm.
    rewrite (lookup_stale computeHash platform config args prev f e Hfp Hs Hr Hep Hm).
    unfold closing. rewrite Hcl.
    cbn [fromCache contents hash].
    pose proof (store_frame args (text f) (hashOf args (mtimeMs f))
                  (afterLookup args
                     (fun d => [EvStat d; EvMemoryRead (keyOf args); EvReadFile d])
                     (memory prev) prev)) as Hst.
    pose proof (store_keeps_writable args (text f) (hashOf args (mtimeMs f))
                  (afterLookup args
                     (fun d => [EvStat d; EvMemoryRead (keyOf args); EvReadFile d])
                     (memory prev) prev)) as Hsw.
    cbv zeta in Hst. destruct Hst as (Hsf & _ & Hsm & _).
    destruct (store args (text f) _ _) as [[c|err] wS];
      cbn [fst snd] in *; by rewrite Hsf, Hsm, Hsw. }
  assert (files before !! path args = Some f) as Hfp by by rewrite Hfb.
  assert (memory before !! keyOf args = Some e) as Hep by by rewrite Hmb.
  pose proof (lookup_stale computeHash platform config args before f e Hfp Hs Hr Hep Hm)
    as Hl.
  unfold closing in Hl. rewrite Hcl in Hl.
  set (wA := afterLookup args
               (fun d => [EvStat d; EvMemoryRead (keyOf args); EvReadFile d])
               (memory before) before) in Hl.
  assert (fst (transforms args (text f) wA) = Return txt) as HtA.
  { by rewrite (resultOnly_applyTransforms args (text f) wA w). }
  destruct (store_success args (text f) (hashOf args (mtimeMs f)) wA txt HtA)
    as (wT & s & evs & Hst & Htr & Hsil & Hstore).
  unfold storage in Hst. injection Hst as Hfiles Hopen Hmem Hroot Hwr.
  assert (cacheRootWritable wA = cacheRootWritable w) as HwA by exact Hwb.
  rewrite HwA in Hstore.
  assert (load args before = (Return {| resultContents := txt; loader := "js" |},
            if cacheRootWritable w
            then log (EvFsWrite (hashOf args (mtimeMs f)) txt)
                   (setCacheRoot (<[hashOf args (mtimeMs f) := txt]> (cacheRoot wA)) wT)
            else log (EvFsWriteFailed (hashOf args (mtimeMs f))) wT)) as Hload.
  { rewrite onLoad_unfold, Hl. cbn [fromCache contents hash]. by rewrite Hstore. }
  assert (transformerCalls wT
          = transformerCalls before ++ List.filter isTransformerEvent evs
              ++ [EvSwc s (path args)]) as Hcalls.
  { unfold transformerCalls at 1. rewrite Htr, !List.filter_app. simpl.
    f_equal. subst wA. unfold afterLookup. simpl.
    rewrite List.filter_app. simpl. by rewrite app_nil_r. }
  assert (exists evsL,
             trace wT = trace before ++ evsL /\
             List.filter isTierEvent evsL = [EvMemoryRead (keyOf args)])
    as (evsL & HtrL & HsilL).
  { eexists. split.
    - rewrite Htr. subst wA. unfold afterLookup. cbn [trace].
      rewrite <- app_assoc. reflexivity.
    - simpl. rewrite List.filter_app, Hsil. reflexivity. }
  fold (load args before). rewrite Hload. cbn [fst snd].
  split; [reflexivity|].
  destruct (cacheRootWritable w); simpl.
  - split; [by rewrite Hmem|]. split; [|split].
    + exists s, (List.filter isTransformerEvent evs).
      rewrite transformerCalls_log. simpl. rewrite app_nil_r.
      exact Hcalls.
    + intros _. apply lookup_insert_eq.
    + exists (evsL ++ [EvFsWrite (hashOf args (mtimeMs f)) txt]).
      rewrite HtrL, <- app_assoc. split; [reflexivity|].
      rewrite List.filter_app, HsilL. reflexivity.
  - split; [by rewrite Hmem|]. split; [|split].
    + exists s, (List.filter isTransformerEvent evs).
      rewrite transformerCalls_log. simpl. rewrite app_nil_r.
      exact Hcalls.
    + discriminate.
    + exists (evsL ++ [EvFsWriteFailed (hashOf args (mtimeMs f))]).
      rewrite HtrL, <- app_assoc. split; [reflexivity|].
      rewrite List.filter_app, HsilL. reflexivity.
Qed.

End Pipeline.

(** * Properties of the asset copy *)

Module AssetFacts.
Import Assets.

(** ** The Android resource name *)

Lemma mapString_append f (s t : string) :
  mapString f (s +:+ t) = mapString f s +:+ mapString f t.
Proof.
  induction s as [|c s IH]; [reflexivity|].
  rewrite append_cons. simpl. by rewrite IH, append_cons.
Qed.

Lemma filterString_append keep (s t : string) :
  filterString keep (s +:+ t) = filterString keep s +:+ filterString keep t.
Proof.
  induction s as [|c s IH]; [reflexivity|].
  rewrite append_cons. simpl. destruct (keep c); [|exact IH].
  by rewrite append_cons, IH.
Qed.

Lemma mapString_mapString f g (s : string) :
  mapString f (mapString g s) = mapString (fun c => f (g c)) s.
Proof. induction s as [|c s IH]; simpl; [reflexivity | by rewrite IH]. Qed.

Lemma mapString_ext f g (s : string) :
  (forall c, f c = g c) -> mapString f s = mapString g s.
Proof. intros H. induction s as [|c s IH]; simpl; [reflexivity | by rewrite H, IH]. Qed.

Lemma allChars_filterString keep (s : string) :
  allChars keep (filterString keep s) = true.
Proof.
  induction s as [|c s IH]; simpl; [reflexivity|].
  destruct (keep c) eqn:E; simpl; [by rewrite E | exact IH].
Qed.

Lemma allChars_dropPrefix p pre (s t : string) :
  dropPrefix pre s = Some t -> allChars p s = true -> allChars p t = true.
Proof.
  revert s. induction pre as [|a pre IH]; intros s; simpl.
  - by intros [= ->].
  - destruct s as [|b s]; [discriminate|].
    destruct (Ascii.eqb a b); [|discriminate].
    intros Hd. simpl. intros [_ Hs]%andb_prop. by apply (IH s).
Qed.

Lemma lowerCodeUnit_idempotent c : lowerCodeUnit (lowerCodeUnit c) = lowerCodeUnit c.
Proof. destruct c as [[] [] [] [] [] [] [] []]; reflexivity. Qed.

Lemma lower_slash_commute c :
  lowerCodeUnit (if Ascii.eqb c "/" then "_"%char else c)
  = (if Ascii.eqb (lowerCodeUnit c) "/" then "_"%char else lowerCodeUnit c).
Proof. destruct c as [[] [] [] [] [] [] [] []]; reflexivity. Qed.

Lemma slash_idempotent c :
  (if Ascii.eqb (if Ascii.eqb c "/" then "_"%char else c) "/" then "_"%char
   else (if Ascii.eqb c "/" then "_"%char else c))
  = (if Ascii.eqb c "/" then "_"%char else c).
Proof. destruct c as [[] [] [] [] [] [] [] []]; reflexivity. Qed.

(** X12.  An Android resource name is a stem made of the characters
    [a-z], [0-9] and [_] only, followed by the asset's extension exactly
    as given (the extension is neither lower-cased nor filtered). *)
Theorem androidAssetName_charset (asset : Asset) :
  exists stem,
    androidAssetName asset = stem +:+ extension asset /\
    allChars isResourceChar stem = true.
Proof.
  eexists. split; [reflexivity|].
  unfold resourceStem, stripAssetsPrefix, dropOtherChars.
  set (kept := filterString isResourceChar _).
  assert (allChars isResourceChar kept = true) as Hkept
    by apply allChars_filterString.
  destruct (dropPrefix "assets_" kept) as [t|] eqn:Hd; simpl; [|exact Hkept].
  by apply (allChars_dropPrefix _ _ _ _ Hd).
Qed.

(** X13.  Different names, one resource name.  The stem of the resource
    name does not change when the asset's name is lower-cased, when its
    slashes are replaced by underscores, or when a character that is
    neither a letter, a digit, an underscore nor a slash is taken out of
    it: assets whose names differ only in these respects are copied to
    the same Android resource. *)
Theorem androidAssetName_collisions (asset : Asset) :
  androidAssetName (renamed asset (toLowerCase (name asset))) = androidAssetName asset
  /\
  androidAssetName (renamed asset (slashesToUnderscores (name asset)))
    = androidAssetName asset
  /\
  (forall n1 n2 c,
      isResourceChar (lowerCodeUnit c) = false ->
      c <> "/"%char ->
      androidAssetName (renamed asset (n1 +:+ String c n2))
      = androidAssetName (renamed asset (n1 +:+ n2))).
Proof.
  assert (Hdir : forall n, getDevServerBasePath (renamed asset n)
                           = getDevServerBasePath asset) by reflexivity.
  unfold androidAssetName, resourceStem. simpl. rewrite !Hdir.
  split; [|split].
  - f_equal. f_equal. f_equal. f_equal.
    unfold toLowerCase. rewrite !mapString_append. f_equal. f_equal.
    rewrite mapString_mapString. apply mapString_ext, lowerCodeUnit_idempotent.
  - f_equal. f_equal. f_equal.
    unfold slashesToUnderscores, toLowerCase. rewrite !mapString_append.
    f_equal. f_equal. rewrite !mapString_mapString.
    apply mapString_ext. intros c. rewrite lower_slash_commute.
    apply slash_idempotent.
  - intros n1 n2 c Hc Hslash. f_equal. f_equal.
    unfold dropOtherChars, slashesToUnderscores, toLowerCase.
    rewrite !mapString_append, !filterString_append. f_equal. f_equal. f_equal.
    simpl. destruct (Ascii.eqb_spec (lowerCodeUnit c) "/") as [E|_].
    + exfalso. apply Hslash. revert E.
      destruct c as [[] [] [] [] [] [] [] []]; (reflexivity || discriminate).
    + by rewrite Hc.
Qed.

Lemma append_assoc (s t u : string) : (s +:+ t) +:+ u = s +:+ (t +:+ u).
Proof.
  induction s as [|c s IH]; [reflexivity|]. by rewrite !append_cons, IH.
Qed.

Lemma dropPrefix_append (pre t : string) : dropPrefix pre (pre +:+ t) = Some t.
Proof.
  induction pre as [|a pre IH]; [by destruct t|].
  rewrite append_cons. simpl. by rewrite Ascii.eqb_refl.
Qed.

(** X14.  The leading slash of [httpServerLocation] and one leading
    [assets] directory do not show in the resource name: an asset served
    from [/assets/d] is named after [d] and its own name, and an asset
    served from [/assets] after its own name alone.  Only one such prefix
    is removed (a [d] that itself starts with [assets/] keeps it). *)
Theorem androidAssetName_drops_assets_directory (asset : Asset) :
  (forall d,
      androidAssetName (servedFrom asset ("/assets/" +:+ d))
      = dropOtherChars (slashesToUnderscores (toLowerCase (d +:+ "/" +:+ name asset)))
        +:+ extension asset)
  /\
  androidAssetName (servedFrom asset "/assets")
  = dropOtherChars (slashesToUnderscores (toLowerCase (name asset)))
    +:+ extension asset.
Proof.
  split.
  - intros d. unfold androidAssetName, resourceStem, getDevServerBasePath. simpl.
    change ("/assets/" +:+ d) with (String "/" ("assets/" +:+ d)). cbv iota beta.
    rewrite append_assoc.
    unfold toLowerCase, slashesToUnderscores, dropOtherChars.
    rewrite (mapString_append _ "assets/"), (mapString_append _ (mapString _ "assets/")),
      (filterString_append _ (mapString _ (mapString _ "assets/"))).
    change (filterString isResourceChar
              (mapString (fun c => if Ascii.eqb c "/" then "_"%char else c)
                 (mapString lowerCodeUnit "assets/")))
      with "assets_".
    unfold stripAssetsPrefix. by rewrite dropPrefix_append.
  - unfold androidAssetName, resourceStem, getDevServerBasePath. simpl.
    change ("assets" +:+ "/" +:+ name asset) with ("assets/" +:+ name asset).
    unfold toLowerCase, slashesToUnderscores, dropOtherChars.
    rewrite (mapString_append _ "assets/"), (mapString_append _ (mapString _ "assets/")),
      (filterString_append _ (mapString _ (mapString _ "assets/"))).
    change (filterString isResourceChar
              (mapString (fun c => if Ascii.eqb c "/" then "_"%char else c)
                 (mapString lowerCodeUnit "assets/")))
      with "assets_".
    unfold stripAssetsPrefix. by rewrite dropPrefix_append.
Qed.

(** ** The copy tasks *)

Section CopyFacts.

Variable dirname : string -> string.
Variable join : string -> string -> string -> string.
Variable addSuffix : string -> string -> Qcanon.Qc -> string.
Variable getSuffixedPath : string -> Qcanon.Qc -> option string -> string.

Abbreviation copyTask :=
  (copyScale dirname join addSuffix getSuffixedPath).

(** X15.  [resolveAssetPath] checks the file system at scale 1 only.  At
    any other scale it returns the suffixed path without a single
    file-system call, whether that file exists or not.  At scale 1 it
    prefers the plain path when [stat] accepts it, and whatever path it
    returns is the one its last [stat] call accepted. *)
Theorem resolveAssetPath_checks_scale_one_only (asset : Asset) :
  (forall scale,
      scale <> ratio 1 1 ->
      resolveAssetPath getSuffixedPath asset scale
      = Done (getSuffixedPath (path asset) scale (platform asset)))
  /\
  (forall respond history,
      respond history (FsStat (path asset)) = Return tt ->
      runTask respond history (resolveAssetPath getSuffixedPath asset (ratio 1 1))
      = (Return (path asset), history ++ [(FsStat (path asset), Return tt)]))
  /\
  (forall respond history p history',
      runTask respond history (resolveAssetPath getSuffixedPath asset (ratio 1 1))
      = (Return p, history') ->
      exists before, history' = before ++ [(FsStat p, Return tt)]).
Proof.
  unfold resolveAssetPath. split; [|split].
  - intros scale Hne. by destruct (decide (scale = ratio 1 1)).
  - intros respond history Hok.
    destruct (decide (ratio 1 1 = ratio 1 1)); [|done].
    simpl. by rewrite Hok.
  - intros respond history p history'.
    destruct (decide (ratio 1 1 = ratio 1 1)); [|done]. simpl.
    destruct (respond history (FsStat (path asset))) as [[]|e1] eqn:H1; simpl.
    + intros [= <- <-]. by eexists.
    + destruct (respond _ (FsStat (getSuffixedPath _ _ _))) as [[]|e2] eqn:H2; simpl.
      * intros [= <- <-]. by eexists.
      * discriminate.
Qed.

(** X16.  On Android a scale that has no density qualifier (any scale
    other than 0.75, 1, 1.5, 2, 3 and 4) fails its task with 'invalid
    asset qualifier' before any file-system call is made.  On every other
    platform there is no such check: the task of any scale starts with a
    file-system call. *)
Theorem android_rejects_scale_without_qualifier dir context asset scale :
  (contextPlatform context = "android" ->
   scale ∉ [ratio 3 4; ratio 1 1; ratio 3 2; ratio 2 1; ratio 3 1; ratio 4 1] ->
   copyScale dirname join addSuffix getSuffixedPath dir context asset scale
   = Failed (JsError ("invalid asset qualifier: " +:+ path asset)))
  /\
  (contextPlatform context <> "android" ->
   exists call k,
     copyScale dirname join addSuffix getSuffixedPath dir context asset scale
     = Await call k).
Proof.
  unfold copyScale. split.
  - intros -> Hscale. simpl.
    assert (ANDROID_ASSET_QUALIFIER scale = None) as ->; [|reflexivity].
    unfold ANDROID_ASSET_QUALIFIER, ANDROID_ASSET_QUALIFIER_TABLE. simpl.
    repeat (case_bool_decide; [exfalso; subst scale; apply Hscale; set_solver|]).
    reflexivity.
  - intros Hne. destruct (String.eqb_spec (contextPlatform context) "android"); [done|].
    simpl. unfold resolveAssetPath.
    destruct (decide (scale = ratio 1 1)); simpl; by eexists _, _.
Qed.

(** X17.  On Android, an asset that is not a drawable (its extension does
    not end in .png, .jpg, .jpeg, .gif or .xml) has one destination for
    all its scales: whatever the scale and whatever the file system
    answers, every copy the task makes goes to [<assetsDir>/raw/<name>],
    so the scales of such an asset overwrite one another. *)
Theorem android_raw_destination_ignores_scale dir context asset scale history :
  contextPlatform context = "android" ->
  isDrawable (extension asset) = false ->
  everyCall
    (fun _ call =>
       forall src dst, call = FsCopyFile src dst ->
                       dst = dir +:+ "/raw/" +:+ androidAssetName asset)
    history
    (copyScale dirname join addSuffix getSuffixedPath dir context asset scale).
Proof.
  intros Hp Hd. unfold copyScale. rewrite Hp, Hd. simpl.
  destruct (ANDROID_ASSET_QUALIFIER scale) as [q|]; [|exact I].
  simpl. unfold resolveAssetPath, mkdirWithAssertPath, await.
  destruct (decide (scale = ratio 1 1)); simpl;
    repeat match goal with
      | |- _ /\ _ => split
      | |- forall _ : Completion unit, _ => intros [[]|?]; simpl
      | |- forall _, _ => intro
      | |- True => exact I
      | H : _ = FsCopyFile _ _ |- _ => first [discriminate H | injection H as <- <-]
      end; reflexivity.
Qed.

(** X18.  On Android a drawable at scale 1 is copied twice.  When every
    file-system call succeeds, the task of scale 1 first copies the
    asset's own file to [<assetsDir>/drawable/<name>] (before any [stat],
    so without checking that the file exists), and then, after the
    [stat], to [<assetsDir>/drawable-mdpi/<name>]; each copy comes right
    after the check of its directory. *)
Theorem android_drawable_scale_one_copied_twice dir context asset :
  contextPlatform context = "android" ->
  isDrawable (extension asset) = true ->
  let first := dir +:+ "/drawable/" +:+ androidAssetName asset in
  let second := dir +:+ "/drawable-mdpi/" +:+ androidAssetName asset in
  runTask allSucceed []
    (copyScale dirname join addSuffix getSuffixedPath dir context asset (ratio 1 1))
  = (Return tt,
     [(FsAccess (dirname first), Return tt);
      (FsCopyFile (path asset) first, Return tt);
      (FsStat (path asset), Return tt);
      (FsAccess (dirname second), Return tt);
      (FsCopyFile (path asset) second, Return tt)]).
Proof.
  intros Hp Hd. unfold copyScale. rewrite Hp, Hd.
  change (ANDROID_ASSET_QUALIFIER (ratio 1 1)) with (Some "mdpi").
  unfold resolveAssetPath.
  destruct (decide (ratio 1 1 = ratio 1 1)) as [_|]; [|done].
  rewrite bool_decide_eq_true_2 by reflexivity.
  reflexivity.
Qed.

(** X19.  No copy without a directory check.  On every platform, at every
    scale and whatever the file system answers, each [copyFile] a task
    issues comes immediately after a successful [access] or a successful
    [mkdir] of the directory of its destination. *)
Theorem copy_follows_directory_check dir context asset scale history :
  everyCall
    (fun before call =>
       forall src dst,
         call = FsCopyFile src dst ->
         exists earlier check,
           before = earlier ++ [(check, Return tt)] /\
           (check = FsAccess (dirname dst) \/ check = FsMkdir (dirname dst)))
    history
    (copyScale dirname join addSuffix getSuffixedPath dir context asset scale).
Proof.
  unfold copyScale.
  destruct (negb (String.eqb (contextPlatform context) "android"));
    [|destruct (ANDROID_ASSET_QUALIFIER scale) as [q|]; [|exact I];
      destruct (isDrawable (extension asset) && bool_decide (scale = ratio 1 1))];
    unfold resolveAssetPath, mkdirWithAssertPath, await;
    destruct (decide (scale = ratio 1 1)); simpl;
    repeat match goal with
      | |- _ /\ _ => split
      | |- forall _ : Completion unit, _ => intros [[]|?]; simpl
      | |- forall _, _ => intro
      | |- True => exact I
      | H : _ = FsCopyFile _ _ |- _ => first [discriminate H | injection H as <- <-]
      | |- exists _ _, _ => eexists _, _; split; [reflexivity | auto]
      end.
Qed.

(** X20.  [copyAssetsToDestination] makes no task at all, and so no
    file-system call, in watch mode (whatever the assets directory) and
    when the assets directory is unset or the empty string; otherwise it
    makes exactly one task for each scale of each asset. *)
Theorem copyAssetsToDestination_plan context assets :
  (mode context = "watch" ->
   copyAssetsToDestination dirname join addSuffix getSuffixedPath context assets = Skip)
  /\
  (mode context <> "watch" ->
   assetsDir context = None \/ assetsDir context = Some "" ->
   copyAssetsToDestination dirname join addSuffix getSuffixedPath context assets
   = WarnAndSkip)
  /\
  (forall dir,
      mode context <> "watch" ->
      assetsDir context = Some dir ->
      dir <> "" ->
      exists tasks,
        copyAssetsToDestination dirname join addSuffix getSuffixedPath context assets
        = CopyAll tasks /\
        List.map (@List.length _) tasks
        = List.map (fun asset => List.length (scales asset)) assets).
Proof.
  unfold copyAssetsToDestination. split; [|split].
  - by intros ->.
  - intros Hm Hd. destruct (String.eqb_spec (mode context) "watch"); [done|].
    by destruct Hd as [-> | ->].
  - intros dir Hm -> Hne.
    destruct (String.eqb_spec (mode context) "watch"); [done|].
    destruct (String.eqb_spec dir ""); [done|].
    eexists. split; [reflexivity|].
    rewrite List.map_map. apply List.map_ext. intros asset.
    apply List.length_map.
Qed.

End CopyFacts.

(** ** The asset properties on examples *)

Lemma androidAssetName_collisions_witness :
  androidAssetName logo = "img_logo1.png" /\
  androidAssetName (renamed logo "logo1") = androidAssetName logo /\
  androidAssetName (renamed logo ("Logo" +:+ String "-" "1"))
  = androidAssetName (renamed logo ("Logo" +:+ "1")).
Proof.
  destruct (androidAssetName_collisions logo) as (_ & _ & Hdrop).
  split; [reflexivity|]. split; [reflexivity|].
  apply (Hdrop "Logo" "1" "-"%char); [reflexivity | discriminate].
Defined.

Lemma resolveAssetPath_checks_scale_one_only_witness :
  resolveAssetPath samePath logo (ratio 2 1) = Done "/app/img/Logo-1.png" /\
  runTask statFails [] (resolveAssetPath samePath logo (ratio 2 1))
  = (Return "/app/img/Logo-1.png", []) /\
  runTask allSucceed [] (resolveAssetPath samePath logo (ratio 1 1))
  = (Return "/app/img/Logo-1.png", [(FsStat "/app/img/Logo-1.png", Return tt)]).
Proof.
  destruct (resolveAssetPath_checks_scale_one_only samePath logo) as (Hother & Hone & _).
  split; [|split].
  - apply (Hother (ratio 2 1)). discriminate.
  - rewrite (Hother (ratio 2 1)); [reflexivity | discriminate].
  - apply (Hone allSucceed []). reflexivity.
Defined.

Lemma android_rejects_scale_without_qualifier_witness :
  copyScale parentOf slashJoin unscaledName samePath "out/res" androidBundle logo
    (ratio 1 2)
  = Failed (JsError "invalid asset qualifier: /app/img/Logo-1.png") /\
  exists call k,
    copyScale parentOf slashJoin unscaledName samePath "out/res" iosBundle logo
      (ratio 1 2) = Await call k.
Proof.
  destruct (android_rejects_scale_without_qualifier parentOf slashJoin unscaledName
              samePath "out/res" androidBundle logo (ratio 1 2)) as [Handroid _].
  destruct (android_rejects_scale_without_qualifier parentOf slashJoin unscaledName
              samePath "out/res" iosBundle logo (ratio 1 2)) as [_ Hios].
  split.
  - apply Handroid; [reflexivity|].
    rewrite !not_elem_of_cons. repeat split; try discriminate. apply not_elem_of_nil.
  - apply Hios. discriminate.
Defined.

Lemma android_raw_destination_ignores_scale_witness :
  (contextPlatform androidBundle = "android" /\ isDrawable (extension font) = false) /\
  androidAssetName font = "fonts_inter.ttf" /\
  everyCall
    (fun _ call =>
       forall src dst, call = FsCopyFile src dst ->
                       dst = "out/res" +:+ "/raw/" +:+ androidAssetName font)
    []
    (copyScale parentOf slashJoin unscaledName samePath "out/res" androidBundle font
       (ratio 3 1)).
Proof.
  split; [split; reflexivity|]. split; [reflexivity|].
  apply (android_raw_destination_ignores_scale parentOf slashJoin unscaledName samePath
           "out/res" androidBundle font (ratio 3 1) []); reflexivity.
Defined.

Lemma android_drawable_scale_one_copied_twice_witness :
  (contextPlatform androidBundle = "android" /\ isDrawable (extension logo) = true) /\
  runTask allSucceed []
    (copyScale parentOf slashJoin unscaledName samePath "out/res" androidBundle logo
       (ratio 1 1))
  = (Return tt,
     [(FsAccess "out/res/drawable/img_logo1.png/..", Return tt);
      (FsCopyFile "/app/img/Logo-1.png" "out/res/drawable/img_logo1.png", Return tt);
      (FsStat "/app/img/Logo-1.png", Return tt);
      (FsAccess "out/res/drawable-mdpi/img_logo1.png/..", Return tt);
      (FsCopyFile "/app/img/Logo-1.png" "out/res/drawable-mdpi/img_logo1.png",
       Return tt)]).
Proof.
  split; [split; reflexivity|].
  apply (android_drawable_scale_one_copied_twice parentOf slashJoin unscaledName
           samePath "out/res" androidBundle logo); reflexivity.
Defined.

Lemma copyAssetsToDestination_plan_witness :
  copyAssetsToDestination parentOf slashJoin unscaledName samePath
    {| assetsDir := Some "out/res"; mode := "watch"; contextPlatform := "android" |}
    [logo; font] = Skip /\
  copyAssetsToDestination parentOf slashJoin unscaledName samePath
    {| assetsDir := Some ""; mode := "bundle"; contextPlatform := "android" |}
    [logo; font] = WarnAndSkip /\
  exists tasks,
    copyAssetsToDestination parentOf slashJoin unscaledName samePath androidBundle
      [logo; font] = CopyAll tasks /\
    List.map (@List.length _) tasks = [2%nat; 1%nat].
Proof.
  split; [|split].
  - apply (copyAssetsToDestination_plan parentOf slashJoin unscaledName samePath).
    reflexivity.
  - apply (copyAssetsToDestination_plan parentOf slashJoin unscaledName samePath);
      [discriminate | by right].
  - destruct (copyAssetsToDestination_plan parentOf slashJoin unscaledName samePath
                androidBundle [logo; font]) as (_ & _ & Hall).
    apply (Hall "out/res"); [discriminate | reflexivity | discriminate].
Defined.

End AssetFacts.

(** * The further plugin properties on the concrete build *)

Lemma lookup_result_shape_witness :
  exists f,
    files demoWorld !! "a.js" = Some f /\
    Some "H1" = Some (demoHash (Some "ios", tt, "a.js", mtimeMs f)) /\
    "const a = 1" = text f.
Proof.
  apply (lookup_result_shape demoHash (Some "ios") tt aJs demoWorld
           {| contents := "const a = 1"; fromCache := false; hash := Some "H1" |}
           (snd (getTransformedSourceFromCache (specCache demoHash) true (Some "ios")
                   tt aJs demoWorld))).
  vm_compute. reflexivity.
Defined.

(** A directory called [a.js]: the lookup throws the [EISDIR] of
    [readFile] and the Memory Tier is as before.  A handle whose [close]
    rejects: the lookup throws the error of [close], after the on-disk
    entry has been promoted. *)
Lemma lookup_throws_only_file_errors_witness :
  let run := getTransformedSourceFromCache (specCache demoHash) true (Some "ios") tt
               aJs directoryWorld in
  (fst run = Throw (SystemError "EISDIR" "read") /\
   memory (snd run) = memory directoryWorld) /\
  (exists w',
      getTransformedSourceFromCache (specCache demoHash) true (Some "ios") tt aJs
        closeFailsWorld = (Throw (SystemError "EIO" "close"), w') /\
      memory w' !! "a.jsios" = Some {| data := "const a=1;"; modifiedAt := 1 |}).
Proof.
  intros run. split.
  - split; [reflexivity|].
    destruct (lookup_throws_only_file_errors demoHash (Some "ios") tt aJs directoryWorld)
      as [Hthrow _].
    destruct (Hthrow (SystemError "EISDIR" "read") (snd run) eq_refl)
      as [(Hnone & _) | (f & Hf & Hcase)]; [discriminate Hnone|].
    injection Hf as <-.
    destruct Hcase as [(Hcl & _) | [(_ & Hs & _) | (_ & _ & _ & _ & Hmem)]];
      [discriminate Hcl | discriminate Hs | exact Hmem].
  - destruct (lookup_throws_only_file_errors demoHash (Some "ios") tt aJs closeFailsWorld)
      as [_ Hclose].
    apply (Hclose {| mtimeMs := 1; text := "const a = 1"; statOk := true;
                     readOk := true; closeOk := false; rejection := ioError |}
                  "const a=1;"); (reflexivity || discriminate).
Defined.

Lemma unopenable_or_unstatable_file_fails_load_witness :
  onLoad throwingCache false (Some "ios") tt None None [] demoBabel demoSwc demoIsFlow
    {| path := "missing.js" |} demoWorld
  = (Throw (SystemError "ENOENT" "open"), demoWorld) /\
  exists w' d,
    onLoad throwingCache true (Some "ios") tt None None [] demoBabel demoSwc demoIsFlow
      aJs statFailsWorld = (Throw (SystemError "EIO" "fstat"), w') /\
    trace w' = trace statFailsWorld ++ [EvOpen "a.js" d; EvStat d; EvClose d] /\
    storage w' = storage statFailsWorld.
Proof.
  split.
  - destruct (unopenable_or_unstatable_file_fails_load (Some "ios") tt None None []
                demoBabel demoSwc demoIsFlow throwingCache {| path := "missing.js" |}
                demoWorld) as [Hopen _].
    apply Hopen. reflexivity.
  - destruct (unopenable_or_unstatable_file_fails_load (Some "ios") tt None None []
                demoBabel demoSwc demoIsFlow throwingCache aJs statFailsWorld)
      as [_ Hstat].
    apply (Hstat {| mtimeMs := 1; text := ""; statOk := false; readOk := true;
                    closeOk := true; rejection := ioError |});
      reflexivity.
Defined.

(** Two rules that reject leave the source alone; a rule that accepts is
    run through Babel with its own plugin, and the rule after it sees what
    Babel returned. *)
Lemma applyCustomRules_in_order_witness :
  applyCustomRules demoBabel [idleRule; idleRule] aJs "const a = 1" demoWorld
  = (Return "const a = 1", demoWorld) /\
  applyCustomRules markingBabel [idleRule; jsRule; jsRule] aJs "x" demoWorld
  = (Return "plugin-a:plugin-a:x",
     log (EvBabel "plugin-a:x" "a.js"
            {| babelrc := false; plugins := Some ["plugin-a"] |})
       (log (EvBabel "x" "a.js" {| babelrc := false; plugins := Some ["plugin-a"] |})
          demoWorld)).
Proof.
  split.
  - destruct (applyCustomRules_in_order demoBabel aJs) as (_ & Hidle & _).
    apply Hidle. repeat constructor.
  - destruct (applyCustomRules_in_order markingBabel aJs) as (_ & _ & Haccept & Hreject).
    rewrite (Hreject idleRule [jsRule; jsRule] "x" demoWorld eq_refl).
    rewrite (Haccept jsRule [jsRule] "x" demoWorld eq_refl). cbv zeta.
    change (markingBabel "x" aJs {| babelrc := false; plugins := Some (rulePlugins jsRule) |})
      with (Return (A:=string) "plugin-a:x").
    cbv iota beta.
    rewrite (Haccept jsRule [] "plugin-a:x" _ eq_refl). reflexivity.
Defined.

Lemma applyTransforms_ends_with_swc_witness :
  exists s evs,
    demoSwc s aJs = Return "const a=1;" /\
    trace (snd (applyTransforms None None [] demoBabel demoSwc demoIsFlow aJs
                  "const a = 1" demoWorld))
    = trace demoWorld ++ evs ++ [EvSwc s "a.js"].
Proof.
  apply (applyTransforms_ends_with_swc None None [] demoBabel demoSwc demoIsFlow aJs
           "const a = 1" demoWorld "const a=1;").
  reflexivity.
Defined.

Lemma store_touches_own_hash_only_witness :
  let run := transformSource (specCache demoHash) true None None [] demoBabel
               failingSwc demoIsFlow aJs "const a = 1" (Some "H1") warmDiskWorld in
  fst run = Throw (JsError "swc failed") /\
  cacheRoot (snd run) = cacheRoot warmDiskWorld.
Proof.
  intros run. split; [reflexivity|].
  destruct (store_touches_own_hash_only demoHash None None [] demoBabel failingSwc
              demoIsFlow aJs "const a = 1" "H1" warmDiskWorld) as (_ & _ & _ & _ & Hthrow).
  apply (Hthrow (JsError "swc failed")). reflexivity.
Defined.

Lemma miss_then_disk_hit_then_memory_hit_witness :
  exists w1 w2 w3 evs,
    onLoad (specCache demoHash) true (Some "ios") tt None None [] demoBabel demoSwc
      demoIsFlow aJs demoWorld
      = (Return {| resultContents := "const a=1;"; loader := "js" |}, w1) /\
    memory w1 !! "a.jsios" = None /\
    onLoad (specCache demoHash) true (Some "ios") tt None None [] demoBabel demoSwc
      demoIsFlow aJs w1
      = (Return {| resultContents := "const a=1;"; loader := "js" |}, w2) /\
    transformerCalls w2 = transformerCalls w1 /\
    memory w2 !! "a.jsios" = Some {| data := "const a=1;"; modifiedAt := 1 |} /\
    onLoad (specCache demoHash) true (Some "ios") tt None None [] demoBabel demoSwc
      demoIsFlow aJs w2
      = (Return {| resultContents := "const a=1;"; loader := "js" |}, w3) /\
    trace w3 = trace w2 ++ evs /\
    List.filter (fun ev => isTierEvent ev || isTransformerEvent ev) evs
      = [EvMemoryRead "a.jsios"].
Proof.
  apply (miss_then_disk_hit_then_memory_hit demoHash (Some "ios") tt None None []
           demoBabel demoSwc demoIsFlow aJs demoWorld demoFile "const a=1;");
    (reflexivity || discriminate).
Defined.

Lemma stale_entry_retransforms_on_every_load_witness :
  let before := loads (specCache demoHash) true (Some "ios") tt None None []
                  demoBabel demoSwc demoIsFlow 2 aJs staleWorld in
  let after := loads (specCache demoHash) true (Some "ios") tt None None []
                 demoBabel demoSwc demoIsFlow 3 aJs staleWorld in
  onLoad (specCache demoHash) true (Some "ios") tt None None [] demoBabel demoSwc
    demoIsFlow aJs before
    = (Return {| resultContents := "const a=1;"; loader := "js" |}, after) /\
  memory after !! "a.jsios" = Some {| data := "old"; modifiedAt := 0 |} /\
  (exists s evs,
      transformerCalls after = transformerCalls before ++ evs ++ [EvSwc s "a.js"]) /\
  (cacheRootWritable staleWorld = true -> cacheRoot after !! "H1" = Some "const a=1;") /\
  (exists evs,
      trace after = trace before ++ evs /\
      List.filter isTierEvent evs
        = [EvMemoryRead "a.jsios";
           if cacheRootWritable staleWorld then EvFsWrite "H1" "const a=1;"
           else EvFsWriteFailed "H1"]).
Proof.
  apply (stale_entry_retransforms_on_every_load demoHash (Some "ios") tt None None []
           demoBabel demoSwc demoIsFlow aJs staleWorld demoFile
           {| data := "old"; modifiedAt := 0 |} "const a=1;" 2);
    (reflexivity || discriminate).
Defined.
